(** * Mirror-Crates: the mass-download engine

  A shallow embedding of [internal/downloader] (the fetch worker, the
  integrity verifier, the rolling bundler, the checksum loader and the
  orchestrator) and of the shard rule shared with [internal/sidecar].

  Conventions.
  - A Go [string] is a byte string: [String.string], whose characters are
    the 8-bit [ascii] values.  [len], indexing and slicing are by byte.
  - Go's [int] and [int64] are [Z]; where the code can leave the 64-bit
    range the wrap-around is written with [wrap64].
  - A Go [map[string]string] is a [gmap string string].
  - The file system is a finite map from (cleaned, slash separated) paths
    to file contents; the outcome of every call that leaves the process
    (HTTP, clock, failing system calls) is read from an explicit
    environment record, so that the functions below stay executable. *)

From Stdlib Require Import ZArith String Ascii List Lia Bool Permutation.
From Stdlib Require Import DecimalString DecimalNat.
From stdpp Require Import base option list gmap strings.

Import ListNotations.
Local Open Scope string_scope.

(* ===================================================================== *)
(** * Go standard library: the string and path functions the code calls  *)
(* ===================================================================== *)

Module strings.

(** [strings.HasPrefix] *)
Definition HasPrefix (s p : string) : bool := String.prefix p s.

(** [s[i:]] *)
Definition from (i : nat) (s : string) : string :=
  String.substring i (String.length s - i) s.

(** [s[i:j]] for [i <= j <= len(s)] *)
Definition slice (i j : nat) (s : string) : string :=
  String.substring i (j - i) s.

(** [strings.Index]: byte offset of the first occurrence. *)
Fixpoint Index (s sep : string) : option nat :=
  if String.prefix sep s then Some 0
  else match s with
       | EmptyString => None
       | String _ s' => S <$> Index s' sep
       end.

(** [strings.LastIndex]: byte offset of the last occurrence. *)
Fixpoint LastIndex (s sep : string) : option nat :=
  match s with
  | EmptyString => if String.prefix sep s then Some 0 else None
  | String _ s' =>
      match LastIndex s' sep with
      | Some i => Some (S i)
      | None => if String.prefix sep s then Some 0 else None
      end
  end.

(** [strings.Split(s, sep)] for a one-byte separator. *)
Fixpoint Split1 (s : string) (sep : ascii) : list string :=
  match s with
  | EmptyString => [EmptyString]
  | String c s' =>
      if Ascii.eqb c sep then EmptyString :: Split1 s' sep
      else match Split1 s' sep with
           | [] => [String c EmptyString]
           | h :: t => String c h :: t
           end
  end.

(** [strings.Join] *)
Definition Join (elems : list string) (sep : string) : string :=
  String.concat sep elems.

(** [strings.ReplaceAll(s, old, new)] for a non-empty [old]: the
    occurrences are replaced left to right without overlap. *)
Fixpoint replace_fuel (fuel : nat) (s old new : string) : string :=
  match fuel with
  | O => s
  | S fuel' =>
      if String.prefix old s
      then new ++ replace_fuel fuel' (from (String.length old) s) old new
      else match s with
           | EmptyString => EmptyString
           | String c s' => String c (replace_fuel fuel' s' old new)
           end
  end.

Definition ReplaceAll (s old new : string) : string :=
  replace_fuel (S (String.length s)) s old new.

(** The white space [strings.TrimSpace] removes from an ASCII string:
    tab, line feed, vertical tab, form feed, carriage return and space.
    (On strings with bytes above 0x7f Go also removes the Unicode spaces
    U+0085 and U+00A0 and the like; the URLs of a crates mirror are
    ASCII.) *)
Definition isSpace (c : ascii) : bool :=
  let n := Ascii.nat_of_ascii c in
  (Nat.eqb n 32) || ((9 <=? n)%nat && (n <=? 13)%nat).

Fixpoint trimLeft (s : string) : string :=
  match s with
  | String c s' => if isSpace c then trimLeft s' else s
  | EmptyString => EmptyString
  end.

Fixpoint trimRight (s : string) : string :=
  match s with
  | EmptyString => EmptyString
  | String c s' =>
      match trimRight s' with
      | EmptyString => if isSpace c then EmptyString else String c EmptyString
      | r => String c r
      end
  end.

Definition TrimSpace (s : string) : string := trimRight (trimLeft s).

(** ASCII case folding.  [strings.ToLower] and [strings.EqualFold] work
    on Unicode; on ASCII strings they are the functions below, and an
    [EqualFold] against a lower-case hexadecimal digest can only succeed
    on such a string (no other rune folds to a hexadecimal digit). *)
Definition lowerAscii (c : ascii) : ascii :=
  let n := Ascii.nat_of_ascii c in
  if ((65 <=? n)%nat && (n <=? 90)%nat) then Ascii.ascii_of_nat (n + 32) else c.

Fixpoint ToLower (s : string) : string :=
  match s with
  | EmptyString => EmptyString
  | String c s' => String (lowerAscii c) (ToLower s')
  end.

Definition EqualFold (s t : string) : bool := String.eqb (ToLower s) (ToLower t).

(** [strings.ToLower] on any string.  It first scans for a byte from
    [utf8.RuneSelf] (0x80) on: a string without one is lower-cased byte
    by byte, which is [ToLower] above; any other string is returned as
    [strings.Map(unicode.ToLower, s)], which reads the Unicode tables and
    comes in as [mapLower]. *)
Definition isASCII (s : string) : bool :=
  forallb (fun c => (Ascii.nat_of_ascii c <? 128)%nat) (list_ascii_of_string s).

Definition ToLowerUnicode (mapLower : string -> string) (s : string) : string :=
  if isASCII s then ToLower s else mapLower s.

End strings.

Module filepath.

(** One step of [filepath.Clean] on the stack of components kept so
    far (most recent first). *)
Definition cleanStep (rooted : bool) (stack : list string) (c : string)
  : list string :=
  if String.eqb c "" || String.eqb c "." then stack
  else if String.eqb c ".." then
    match stack with
    | top :: rest => if String.eqb top ".." then c :: stack else rest
    | [] => if rooted then [] else [c]
    end
  else c :: stack.

(** [filepath.Clean] with [/] as the separator. *)
Definition Clean (p : string) : string :=
  let rooted := strings.HasPrefix p "/" in
  let comps := rev (fold_left (cleanStep rooted) (strings.Split1 p "/"%char) []) in
  let body := strings.Join comps "/" in
  if rooted then "/" ++ body
  else if String.eqb body "" then "." else body.

(** [filepath.Join]: the elements from the first non-empty one on are
    joined with the separator and the result is cleaned. *)
Fixpoint Join (elem : list string) : string :=
  match elem with
  | [] => ""
  | e :: rest =>
      if String.eqb e "" then Join rest
      else Clean (strings.Join elem "/")
  end.

End filepath.


(* ===================================================================== *)
(** * Go standard library: SHA-256 and hexadecimal encoding              *)
(* ===================================================================== *)

Module sha256.

Local Open Scope Z_scope.

Definition w32 (x : Z) : Z := x mod 2 ^ 32.
Definition add32 (a b : Z) : Z := w32 (a + b).
Definition rotr (n x : Z) : Z := Z.lor (Z.shiftr x n) (w32 (Z.shiftl x (32 - n))).
Definition not32 (x : Z) : Z := Z.lxor x 4294967295.

Definition Ch (x y z : Z) : Z := Z.lxor (Z.land x y) (Z.land (not32 x) z).
Definition Maj (x y z : Z) : Z :=
  Z.lxor (Z.lxor (Z.land x y) (Z.land x z)) (Z.land y z).
Definition bsig0 (x : Z) : Z := Z.lxor (Z.lxor (rotr 2 x) (rotr 13 x)) (rotr 22 x).
Definition bsig1 (x : Z) : Z := Z.lxor (Z.lxor (rotr 6 x) (rotr 11 x)) (rotr 25 x).
Definition ssig0 (x : Z) : Z := Z.lxor (Z.lxor (rotr 7 x) (rotr 18 x)) (Z.shiftr x 3).
Definition ssig1 (x : Z) : Z := Z.lxor (Z.lxor (rotr 17 x) (rotr 19 x)) (Z.shiftr x 10).

(** The first 64 primes. *)
Definition primes : list Z :=
  [2; 3; 5; 7; 11; 13; 17; 19; 23; 29; 31; 37; 41; 43; 47; 53; 59; 61; 67; 71;
   73; 79; 83; 89; 97; 101; 103; 107; 109; 113; 127; 131; 137; 139; 149; 151;
   157; 163; 167; 173; 179; 181; 191; 193; 197; 199; 211; 223; 227; 229; 233;
   239; 241; 251; 257; 263; 269; 271; 277; 281; 283; 293; 307; 311].

(** The integer cube root, one bit at a time from bit [n - 1] down. *)
Fixpoint cbrt_bits (n : nat) (x r : Z) : Z :=
  match n with
  | O => r
  | S n' =>
      let r' := r + 2 ^ Z.of_nat n' in
      cbrt_bits n' x (if r' * r' * r' <=? x then r' else r)
  end.

(** The round constants: the first 32 bits of the fractional parts of the
    cube roots of the primes. *)
Definition K : list Z :=
  Eval vm_compute in map (fun p => w32 (cbrt_bits 36 (p * 2 ^ 96) 0)) primes.

(** The eight working variables. *)
Record state := St { ha : Z; hb : Z; hc : Z; hd : Z; he : Z; hf : Z; hg : Z; hh : Z }.

(** The initial hash value: the first 32 bits of the fractional parts of
    the square roots of the first eight primes. *)
Definition frac_sqrt (p : Z) : Z := w32 (Z.sqrt (p * 2 ^ 64)).

Definition init : state :=
  Eval vm_compute in
    St (frac_sqrt 2) (frac_sqrt 3) (frac_sqrt 5) (frac_sqrt 7)
       (frac_sqrt 11) (frac_sqrt 13) (frac_sqrt 17) (frac_sqrt 19).

Definition bytes := list Byte.byte.

Definition byteZ (b : Byte.byte) : Z := Z.of_N (Byte.to_N b).

Definition byte_of_Z (z : Z) : Byte.byte :=
  match Byte.of_N (Z.to_N (z mod 256)) with
  | Some b => b
  | None => Byte.x00
  end.

(** Big-endian bytes of a [width]-byte number. *)
Fixpoint be_bytes (width : nat) (z : Z) : bytes :=
  match width with
  | O => []
  | S w => byte_of_Z (Z.shiftr z (8 * Z.of_nat w)) :: be_bytes w z
  end.

(** The message followed by 0x80, zeros up to 56 modulo 64, and the bit
    length on eight bytes. *)
Definition pad (msg : bytes) : bytes :=
  let len := Z.of_nat (length msg) in
  let zeros := Z.to_nat ((55 - len) mod 64) in
  (msg ++ [Byte.x80] ++ repeat Byte.x00 zeros ++ be_bytes 8 (8 * len))%list.

(** The sixteen 32-bit words of a 64-byte block (read from the front of
    [bs]; absent bytes count as zero). *)
Fixpoint words (n : nat) (bs : bytes) : list Z :=
  match n with
  | O => []
  | S n' =>
      let b i := byteZ (nth i bs Byte.x00) in
      (b 0%nat * 16777216 + b 1%nat * 65536 + b 2%nat * 256 + b 3%nat)
        :: words n' (skipn 4 bs)
  end.

(** Message schedule: [w] holds the words computed so far, latest first. *)
Fixpoint schedule (n : nat) (w : list Z) : list Z :=
  match n with
  | O => w
  | S n' =>
      let g i := nth i w 0 in
      schedule n'
        (add32 (add32 (ssig1 (g 1%nat)) (g 6%nat))
               (add32 (ssig0 (g 14%nat)) (g 15%nat)) :: w)
  end.

Definition round (s : state) (kw : Z * Z) : state :=
  let t1 := add32 (add32 (add32 (hh s) (bsig1 (he s)))
                         (add32 (Ch (he s) (hf s) (hg s)) (fst kw))) (snd kw) in
  let t2 := add32 (bsig0 (ha s)) (Maj (ha s) (hb s) (hc s)) in
  St (add32 t1 t2) (ha s) (hb s) (hc s) (add32 (hd s) t1) (he s) (hf s) (hg s).

Definition compress (h : state) (block : bytes) : state :=
  let w := rev (schedule 48 (rev (words 16 block))) in
  let s := fold_left round (combine K w) h in
  St (add32 (ha h) (ha s)) (add32 (hb h) (hb s)) (add32 (hc h) (hc s))
     (add32 (hd h) (hd s)) (add32 (he h) (he s)) (add32 (hf h) (hf s))
     (add32 (hg h) (hg s)) (add32 (hh h) (hh s)).

Fixpoint blocks (n : nat) (h : state) (bs : bytes) : state :=
  match n with
  | O => h
  | S n' => blocks n' (compress h (firstn 64 bs)) (skipn 64 bs)
  end.

(** [sha256.Sum256] as the 32 bytes of the digest. *)
Definition Sum256 (msg : bytes) : bytes :=
  let p := pad msg in
  let s := blocks (length p / 64) init p in
  flat_map (be_bytes 4) [ha s; hb s; hc s; hd s; he s; hf s; hg s; hh s].

End sha256.

Module hex.

Definition digit (n : N) : ascii :=
  match n with
  | 0 => "0" | 1 => "1" | 2 => "2" | 3 => "3" | 4 => "4" | 5 => "5"
  | 6 => "6" | 7 => "7" | 8 => "8" | 9 => "9" | 10 => "a" | 11 => "b"
  | 12 => "c" | 13 => "d" | 14 => "e" | _ => "f"
  end%N%char.

(** [hex.EncodeToString]: two lower-case digits per byte. *)
Fixpoint EncodeToString (bs : list Byte.byte) : string :=
  match bs with
  | [] => EmptyString
  | b :: rest =>
      let n := Byte.to_N b in
      String (digit (n / 16)) (String (digit (n mod 16)) (EncodeToString rest))
  end.

End hex.

(** The digest a file's bytes hash to, as [verifyFile] prints it. *)
Definition sha256_hex (content : list Byte.byte) : string :=
  hex.EncodeToString (sha256.Sum256 content).

(* ===================================================================== *)
(** * Package [sidecar]: the shard rule of the sidecar generator          *)
(* ===================================================================== *)

Module sidecar.

(** [CrateDirFor] of [internal/sidecar]. *)
Definition CrateDirFor (crateName outDir : string) : string :=
  if String.eqb crateName "" then outDir
  else
    let name := crateName in
    if (String.length name <=? 3)%nat then filepath.Join [outDir; name]
    else
      let firstDir :=
        if strings.HasPrefix name "1" || strings.HasPrefix name "2"
           || strings.HasPrefix name "3"
        then strings.slice 0 1 name
        else if (2 <=? String.length name)%nat && (1 <? String.length name)%nat
                && bool_decide (String.get 1 name = Some "-"%char)
             then strings.slice 0 2 name
             else strings.slice 0 1 name in
      let secondStart := String.length firstDir in
      let secondEnd := (secondStart + 2)%nat in
      let secondEnd :=
        if (String.length name <? secondEnd)%nat then String.length name
        else secondEnd in
      let secondDir := strings.slice secondStart secondEnd name in
      filepath.Join [outDir; firstDir; secondDir].

End sidecar.

(* ===================================================================== *)
(** * Package [downloader]                                               *)
(* ===================================================================== *)

Module downloader.

Local Open Scope Z_scope.

(** ** Errors, integers, the file system *)

(** A Go [error]: its text, and whether [errors.Is] finds
    [context.Canceled] or [context.DeadlineExceeded] in it. *)
Record error := Err { err_msg : string; is_ctx : bool }.

(** Two's-complement reading of the low 64 bits, for [int64] and
    [time.Duration] arithmetic. *)
Definition wrap64 (z : Z) : Z := (z + 2 ^ 63) mod 2 ^ 64 - 2 ^ 63.
Definition add64 (a b : Z) : Z := wrap64 (a + b).
Definition mul64 (a b : Z) : Z := wrap64 (a * b).
(** [a << k] for a non-negative count [k]. *)
Definition shl64 (a k : Z) : Z := wrap64 (Z.shiftl a k).

(** [strconv.Itoa] and the verb [%d]. *)
Definition itoa (z : Z) : string := NilZero.string_of_int (Z.to_int z).

(** Files by path.  A file that is present can be statted, opened and
    read to its end. *)
Abbreviation FS := (gmap string (list Byte.byte)).

(** The builtin [max] the package redefines on [int]. *)
Definition max (a b : Z) : Z := if a >? b then a else b.

(** ** The manifest record, [type Record struct] *)
Record ManifestRecord := {
  SchemaVersion : Z;
  URL : string;
  Path : string;
  Size : Z;
  SHA256 : string;
  StartedAt : string;
  FinishedAt : string;
  OK : bool;
  Error : string;
  Retries : Z;
  Status : string
}.

(** ** The rolling bundler *)

Module Bundler.

(** What the bundler asks of the operating system and of its writers,
    in order: the history of one [Bundler]. *)
Inductive Event :=
| CloseTar                                  (* b.tw.Close() *)
| CloseZstd                                 (* b.zw.Close() *)
| CloseFile                                 (* b.outFile.Close() *)
| Create (dir name : string)                (* os.Create(filepath.Join(dir, name)) succeeded *)
| CreateFailed (dir name : string)          (* os.Create(filepath.Join(dir, name)) failed *)
| WriteHeader (name : string) (size : Z)    (* b.tw.WriteHeader(hdr) succeeded *)
| Copy (n : Z).                             (* io.Copy(b.tw, f) *)

(** [type Bundler struct].  A writer field is [None] for a nil pointer,
    [Some true] for an open writer and [Some false] for a closed one.
    [history] is not a field of the Go struct: it records the calls made. *)
Record t := {
  enabled : bool;
  outDir : string;
  targetBytes : Z;
  currentIdx : nat;
  currentBytes : Z;
  tw : option bool;
  zw : option bool;
  outFile : option bool;
  history : list Event
}.

(** ["%04d"] of a non-negative index: decimal, padded with zeros on the
    left to four digits, longer when the number needs it. *)
Fixpoint zeros (n : nat) : string :=
  match n with
  | O => EmptyString
  | S n' => String "0" (zeros n')
  end.

Definition fmt04d (i : nat) : string :=
  let s := NilZero.string_of_uint (Nat.to_uint i) in
  zeros (4 - String.length s) ++ s.

Definition bundleName (i : nat) : string := "bundle-" ++ fmt04d i ++ ".tar.zst".

(** Closing a writer that is there; a nil one is left alone. *)
Definition closed (h : option bool) : option bool :=
  match h with Some _ => Some false | None => None end.

Definition closeEvent (h : option bool) (e : Event) : list Event :=
  match h with Some _ => [e] | None => [] end.

(** [rotateLocked].  [create_err] is what [os.Create] answers.  The
    encoder options are constants the zstd package accepts, so
    [zstd.NewWriter] returns no error. *)
Definition rotateLocked (b : t) (create_err : option error) : t * option error :=
  if negb (enabled b) then (b, None)
  else
    let closes := (closeEvent (tw b) CloseTar ++ closeEvent (zw b) CloseZstd
                     ++ closeEvent (outFile b) CloseFile)%list in
    let name := bundleName (currentIdx b) in
    match create_err with
    | Some e =>
        ({| enabled := enabled b; outDir := outDir b; targetBytes := targetBytes b;
            currentIdx := currentIdx b; currentBytes := currentBytes b;
            tw := closed (tw b); zw := closed (zw b); outFile := closed (outFile b);
            history := (history b ++ closes ++ [CreateFailed (outDir b) name])%list |}, Some e)
    | None =>
        ({| enabled := enabled b; outDir := outDir b; targetBytes := targetBytes b;
            currentIdx := S (currentIdx b); currentBytes := 0;
            tw := Some true; zw := Some true; outFile := Some true;
            history := (history b ++ closes ++ [Create (outDir b) name])%list |}, None)
    end.

(** [NewBundler].  [mkdir_err] and [create_err] are the answers of
    [os.MkdirAll] and of the first [os.Create]. *)
Definition NewBundler (enabled_ : bool) (bundlesOut : string) (targetGB : Z)
    (mkdir_err create_err : option error) : t + error :=
  if negb enabled_ then
    inl {| enabled := false; outDir := ""; targetBytes := 0; currentIdx := 0;
           currentBytes := 0; tw := None; zw := None; outFile := None;
           history := [] |}
  else
    match mkdir_err with
    | Some e => inr e
    | None =>
        let b := {| enabled := true; outDir := bundlesOut;
                    targetBytes := mul64 targetGB (2 ^ 30); currentIdx := 0;
                    currentBytes := 0; tw := None; zw := None; outFile := None;
                    history := [] |} in
        match rotateLocked b create_err with
        | (_, Some e) => inr e
        | (b', None) => inl b'
        end
    end.

(** What the world answers during one [AddFile]. *)
Record AddEnv := {
  stat : Z + error;                 (* os.Stat(filePath): the size, or an error *)
  create_err : option error;        (* os.Create in rotateLocked, if it runs *)
  open_err : option error;          (* os.Open(filePath) *)
  header_err : option error;        (* b.tw.WriteHeader on an open writer *)
  copied : Z;                       (* n of io.Copy(b.tw, f) *)
  copy_err : option error           (* err of io.Copy(b.tw, f) *)
}.

Definition errWriteAfterClose : error := Err "archive/tar: write after close" false.

Definition withHistory (b : t) (es : list Event) : t :=
  {| enabled := enabled b; outDir := outDir b; targetBytes := targetBytes b;
     currentIdx := currentIdx b; currentBytes := currentBytes b;
     tw := tw b; zw := zw b; outFile := outFile b;
     history := (history b ++ es)%list |}.

Definition withBytes (b : t) (n : Z) : t :=
  {| enabled := enabled b; outDir := outDir b; targetBytes := targetBytes b;
     currentIdx := currentIdx b; currentBytes := n;
     tw := tw b; zw := zw b; outFile := outFile b;
     history := history b |}.

(** The part of [AddFile] after the rotation check.  (The tar writer of
    an enabled bundler is never nil: [NewBundler] opens the first bundle
    before it returns.) *)
Definition addEntry (b : t) (headerName : string) (size : Z) (env : AddEnv)
  : t * option error :=
  match open_err env with
  | Some e => (b, Some e)
  | None =>
      match tw b with
      | Some true =>
          match header_err env with
          | Some e => (b, Some e)
          | None =>
              let b1 := withHistory b [WriteHeader headerName size; Copy (copied env)] in
              match copy_err env with
              | Some e => (b1, Some e)
              | None => (withBytes b1 (add64 (currentBytes b1) (copied env)), None)
              end
          end
      | _ => (b, Some errWriteAfterClose)
      end
  end.

(** Whether [AddFile] takes the rotation branch for a file of [size] bytes. *)
Definition mustRotate (b : t) (size : Z) : bool :=
  add64 (currentBytes b) size >? targetBytes b.

(** [AddFile] *)
Definition AddFile (b : t) (filePath headerName : string) (env : AddEnv)
  : t * option error :=
  if negb (enabled b) then (b, None)
  else
    match stat env with
    | inr e => (b, Some e)
    | inl size =>
        if mustRotate b size then
          match rotateLocked b (create_err env) with
          | (b', Some e) => (b', Some e)
          | (b', None) => addEntry b' headerName size env
          end
        else addEntry b headerName size env
    end.

(** [Close].  The three answers are those of the three [Close] calls. *)
Definition Close (b : t) (tw_err zw_err file_err : option error) : t * option error :=
  if negb (enabled b) then (b, None)
  else
    let b1 := {| enabled := enabled b; outDir := outDir b; targetBytes := targetBytes b;
                 currentIdx := currentIdx b; currentBytes := currentBytes b;
                 tw := closed (tw b); zw := zw b; outFile := outFile b;
                 history := (history b ++ closeEvent (tw b) CloseTar)%list |} in
    match tw b, tw_err with
    | Some _, Some e => (b1, Some e)
    | _, _ =>
        let b2 := {| enabled := enabled b1; outDir := outDir b1; targetBytes := targetBytes b1;
                     currentIdx := currentIdx b1; currentBytes := currentBytes b1;
                     tw := tw b1; zw := closed (zw b1); outFile := outFile b1;
                     history := (history b1 ++ closeEvent (zw b1) CloseZstd)%list |} in
        match zw b, zw_err with
        | Some _, Some e => (b2, Some e)
        | _, _ =>
            match outFile b with
            | Some _ =>
                ({| enabled := enabled b2; outDir := outDir b2; targetBytes := targetBytes b2;
                    currentIdx := currentIdx b2; currentBytes := currentBytes b2;
                    tw := tw b2; zw := zw b2; outFile := Some false;
                    history := (history b2 ++ [CloseFile])%list |}, file_err)
            | None => (b2, None)
            end
        end
    end.

(** The names of the files [os.Create] has made, in order. *)
Definition created (h : list Event) : list string :=
  flat_map (fun e => match e with Create _ name => [name] | _ => [] end) h.


(** The path of a bundle file. *)
Definition bundlePath (dir name : string) : string := filepath.Join [dir; name].

End Bundler.

(** ** Paths *)

(** [sanitizeName]: the last path segment of the URL, lightly cleaned;
    the digest of the empty input when there is none. *)
Definition sanitizeName (u : string) : string :=
  let seg := match strings.LastIndex u "/" with
             | Some i => strings.from (i + 1) u
             | None => u
             end in
  let seg := strings.TrimSpace seg in
  if String.eqb seg "" || String.eqb seg "/" then sha256_hex []
  else
    let seg := strings.ReplaceAll seg ".." "_" in
    let seg := strings.ReplaceAll seg "?" "_" in
    let seg := strings.ReplaceAll seg "&" "_" in
    seg.

(** [crateNameFromURL]: the last but one segment of the URL's path. *)
Definition crateNameFromURL (u : string) : string :=
  let rest := u in
  let rest := match strings.Index rest "://" with
              | Some i => strings.from (i + 3) rest
              | None => rest
              end in
  let rest := match strings.Index rest "/" with
              | Some j => strings.from (j + 1) rest
              | None => rest
              end in
  let parts := strings.Split1 rest "/"%char in
  if (2 <=? length parts)%nat then nth (length parts - 2) parts "" else "".

(** [crateDirFor] of [internal/downloader]. *)
Definition crateDirFor (crateName outDir : string) : string :=
  if String.eqb crateName "" then outDir
  else
    let name := crateName in
    if (String.length name <=? 3)%nat then filepath.Join [outDir; name]
    else
      let firstDir :=
        if strings.HasPrefix name "1" || strings.HasPrefix name "2"
           || strings.HasPrefix name "3"
        then strings.slice 0 1 name
        else if (2 <=? String.length name)%nat && (1 <? String.length name)%nat
                && bool_decide (String.get 1 name = Some "-"%char)
             then strings.slice 0 2 name
             else strings.slice 0 1 name in
      let secondStart := String.length firstDir in
      let secondEnd := (secondStart + 2)%nat in
      let secondEnd :=
        if (String.length name <? secondEnd)%nat then String.length name
        else secondEnd in
      let secondDir := strings.slice secondStart secondEnd name in
      filepath.Join [outDir; firstDir; secondDir].


(** [headerPathFor]: the entry name inside a bundle, host then file. *)
Definition headerPathFor (url base : string) : string :=
  let host :=
    if strings.HasPrefix url "http" then
      let rest := url in
      let rest := match strings.Index rest "://" with
                  | Some i => strings.from (i + 3) rest
                  | None => rest
                  end in
      match strings.Index rest "/" with
      | Some j => strings.slice 0 j rest
      | None => rest
      end
    else "" in
  if String.eqb host "" then base else filepath.Join [host; base].

(** ** The downloader and the world it runs in *)

(** [type Downloader struct]: the fields that stay fixed during a run.
    The HTTP client is the environment below; the counters and the bundler
    the struct points to are in [World]. *)
Record Downloader := {
  outDir : string;
  checksums : gmap string string;
  concurrency : Z;
  timeout : Z;
  progressEach : Z;
  progressIntv : Z;
  retries : Z;
  retryBase : Z;
  retryMax : Z
}.

(** [NewDownloader] *)
Definition NewDownloader (outDir_ : string) (concurrency_ : Z) (timeout_ : Z)
    (checksums_ : gmap string string) : Downloader :=
  {| outDir := outDir_; checksums := checksums_; concurrency := concurrency_;
     timeout := timeout_; progressEach := 0; progressIntv := 0;
     retries := 6; retryBase := 500 * 1000000; retryMax := 30 * 1000000000 |}.

(** [SetRetries], [SetRetryBase], [SetRetryMax] *)
Definition SetRetries (d : Downloader) (n : Z) : Downloader :=
  {| outDir := outDir d; checksums := checksums d; concurrency := concurrency d;
     timeout := timeout d; progressEach := progressEach d;
     progressIntv := progressIntv d;
     retries := n; retryBase := retryBase d; retryMax := retryMax d |}.

Definition SetRetryBase (d : Downloader) (dur : Z) : Downloader :=
  if dur >? 0 then
    {| outDir := outDir d; checksums := checksums d; concurrency := concurrency d;
       timeout := timeout d; progressEach := progressEach d;
       progressIntv := progressIntv d;
       retries := retries d; retryBase := dur; retryMax := retryMax d |}
  else d.

Definition SetRetryMax (d : Downloader) (dur : Z) : Downloader :=
  if dur >? 0 then
    {| outDir := outDir d; checksums := checksums d; concurrency := concurrency d;
       timeout := timeout d; progressEach := progressEach d;
       progressIntv := progressIntv d;
       retries := retries d; retryBase := retryBase d; retryMax := dur |}
  else d.

(** What a fetch does that others can see, in order. *)
Inductive Event :=
| EvHttpGet (url : string)                (* d.client.Do(req) *)
| EvRetrying (attempt : Z) (sleep : Z)    (* the "retrying" log line, metRetries.Inc(), time.Sleep(sleep) *)
| EvProcessed (result : string)           (* metProcessed.WithLabelValues(result).Inc() *)
| EvBundleFailed (url : string).          (* the "bundle_failed" log line *)

(** The state the workers share: the file system, the bundler behind
    [d.bundler] ([None] for a nil pointer), the counters of the
    [Downloader], and the trace of events. *)
Record World := {
  fs : FS;
  bundler : option Bundler.t;
  total : Z;
  okCount : Z;
  errCount : Z;
  trace : list Event
}.

(** An HTTP response: its status, the bytes [io.Copy] has written to the
    temporary file when it returns, and the error it returns. *)
Record Response := {
  StatusCode : Z;
  body_written : list Byte.byte;
  copy_err : option error
}.

(** What the world answers during one attempt. *)
Record AttemptEnv := {
  create_err : option error;          (* os.Create(tmpPath) *)
  do_result : Response + error;       (* d.client.Do(req) *)
  rename_err : option error;          (* os.Rename(tmpPath, outPath) *)
  unix_nano : Z                       (* time.Now().UnixNano() at the back-off *)
}.

(** What the world answers during one [fetchOne].  [request_ok] tells
    whether [http.NewRequestWithContext] accepts the URL; when it does not
    it returns a nil request, and setting the header on it panics. *)
Record FetchEnv := {
  started_at : string;                (* time.Now().UTC().Format(time.RFC3339) on entry *)
  finished_at : string;               (* the same at the end *)
  mkdir_err : option error;           (* os.MkdirAll(crateDir, 0o755) *)
  request_ok : bool;
  attempt_env : Z -> AttemptEnv;      (* by attempt number, from 1 *)
  add_env : Bundler.AddEnv            (* the answers to the bundler's AddFile *)
}.

(** [verifyFile] *)
Definition verifyFile (d : Downloader) (fs_ : FS) (path url : string) : bool * string :=
  let want := checksums d !! url in
  match fs_ !! path with
  | None => (false, "")
  | Some content =>
      let got := sha256_hex content in
      match want with
      | Some w => if negb (String.eqb w "") then (strings.EqualFold w got, got)
                  else (true, got)
      | None => (true, got)
      end
  end.

(** ** The retry loop of [fetchOne] *)

(** The variables of the loop. *)
Record Loop := {
  l_fs : FS;
  l_n : Z;                            (* n *)
  l_lastErr : option error;           (* lastErr *)
  l_attemptCnt : Z;                   (* attemptCnt *)
  l_trace : list Event
}.

(** [resp.StatusCode] is one the code retries after. *)
Definition retryable (status : Z) : bool :=
  (status =? 408) || (status =? 425) || (status =? 429) || (status >=? 500).

(** [back]: the base shifted left by the attempts made before, capped. *)
Definition backoff (d : Downloader) (attempt : Z) : Z :=
  let back := shl64 (retryBase d) (attempt - 1) in
  if back >? retryMax d then retryMax d else back.

(** [sleep]: [back] times the jitter [0.5 + (nano & 0x3ff) / 1024.0].
    The jitter is the dyadic number [(512 + x) / 1024], and while [back]
    stays below 2^42 ns (73 minutes) the float64 product is exact, so
    that converting it to a [time.Duration] truncates the exact quotient. *)
Definition jitter_num (nano : Z) : Z := 512 + Z.land nano 1023.
Definition sleepFor (back nano : Z) : Z := Z.quot (back * jitter_num nano) 1024.

Definition httpError (status : Z) : error := Err ("HTTP " ++ itoa status) false.

(** How the loop is left: by its condition or a [break], or by the panic
    of a nil request. *)
Inductive Exit :=
| Left (st : Loop)
| Panic (st : Loop).

(** The end of the loop body, after the request: leave the loop when the
    attempt went through or the context is over, else back off (when an
    attempt is left) and go on with [next]. *)
Definition afterAttempt (d : Downloader) (attempts attempt nano : Z) (st : Loop)
    (next : Loop -> Exit) : Exit :=
  match l_lastErr st with
  | None => Left st
  | Some e =>
      if is_ctx e then Left st
      else if attempt <? attempts then
        next {| l_fs := l_fs st; l_n := l_n st; l_lastErr := l_lastErr st;
                l_attemptCnt := l_attemptCnt st;
                l_trace := (l_trace st ++
                  [EvRetrying attempt (sleepFor (backoff d attempt) nano)])%list |}
      else next st
  end.

(** [for attempt := 1; attempt <= attempts; attempt++ { ... }], entered at
    [attempt] with [fuel] iterations left ([fuel = attempts - attempt + 1]). *)
Fixpoint fetchLoop (d : Downloader) (env : FetchEnv) (url tmpPath outPath : string)
    (attempts : Z) (fuel : nat) (attempt : Z) (st : Loop) : Exit :=
  match fuel with
  | O => Left st
  | S fuel' =>
      let ae := attempt_env env attempt in
      let next := fetchLoop d env url tmpPath outPath attempts fuel' (attempt + 1) in
      let after := afterAttempt d attempts attempt (unix_nano ae) in
      (* ensure previous partial is removed *)
      let fs0 := delete tmpPath (l_fs st) in
      match create_err ae with
      | Some e =>
          Left {| l_fs := fs0; l_n := l_n st; l_lastErr := Some e;
                  l_attemptCnt := attempt; l_trace := l_trace st |}
      | None =>
          let fs1 := <[tmpPath := []]> fs0 in
          if negb (request_ok env) then
            Panic {| l_fs := fs1; l_n := l_n st; l_lastErr := l_lastErr st;
                     l_attemptCnt := attempt; l_trace := l_trace st |}
          else
            let tr := (l_trace st ++ [EvHttpGet url])%list in
            match do_result ae with
            | inr e =>
                after {| l_fs := delete tmpPath fs1; l_n := l_n st;
                         l_lastErr := Some e; l_attemptCnt := attempt;
                         l_trace := tr |} next
            | inl resp =>
                if StatusCode resp =? 200 then
                  let fs2 := <[tmpPath := body_written resp]> fs1 in
                  let n := Z.of_nat (length (body_written resp)) in
                  match copy_err resp with
                  | None =>
                      match rename_err ae with
                      | None =>
                          Left {| l_fs := <[outPath := body_written resp]> (delete tmpPath fs2);
                                  l_n := n; l_lastErr := None;
                                  l_attemptCnt := attempt; l_trace := tr |}
                      | Some _ =>
                          (* [lastErr = err] reads the outer [err], nil here *)
                          after {| l_fs := fs2; l_n := n; l_lastErr := None;
                                   l_attemptCnt := attempt; l_trace := tr |} next
                      end
                  | Some e =>
                      after {| l_fs := fs2; l_n := n; l_lastErr := Some e;
                               l_attemptCnt := attempt; l_trace := tr |} next
                  end
                else
                  let st' := {| l_fs := delete tmpPath fs1; l_n := l_n st;
                                l_lastErr := Some (httpError (StatusCode resp));
                                l_attemptCnt := attempt; l_trace := tr |} in
                  if negb (retryable (StatusCode resp)) then Left st'
                  else after st' next
            end
      end
  end.

(** ** [fetchOne] *)

(** What a call of [fetchOne] comes to: the record it returns, or the
    panic that ends the process. *)
Inductive Outcome :=
| Returned (rec : ManifestRecord)
| Panicked.

(** Where the file of a URL goes, and its temporary sibling. *)
Definition outPathFor (d : Downloader) (url : string) : string :=
  filepath.Join [crateDirFor (crateNameFromURL url) (outDir d); sanitizeName url].

Definition tmpPathFor (d : Downloader) (url : string) : string :=
  outPathFor d url ++ ".part".

(** [d.incOK()], [d.incErr()] and the metric next to them. *)
Definition countOK (w : World) (fs_ : FS) (tr : list Event) (label : string) : World :=
  {| fs := fs_; bundler := bundler w; total := total w;
     okCount := okCount w + 1; errCount := errCount w;
     trace := (tr ++ [EvProcessed label])%list |}.

Definition countErr (w : World) (fs_ : FS) (tr : list Event) : World :=
  {| fs := fs_; bundler := bundler w; total := total w;
     okCount := okCount w; errCount := errCount w + 1;
     trace := (tr ++ [EvProcessed "error"])%list |}.

(** The hand-off of a verified file to the bundler, when there is one
    and it is enabled; its error is logged and dropped. *)
Definition handOff (w : World) (url outPath name : string) (env : FetchEnv) : World :=
  match bundler w with
  | Some b =>
      if Bundler.enabled b then
        let headerName := headerPathFor url name in
        match Bundler.AddFile b outPath headerName (add_env env) with
        | (b', Some _) =>
            {| fs := fs w; bundler := Some b'; total := total w;
               okCount := okCount w; errCount := errCount w;
               trace := (trace w ++ [EvBundleFailed url])%list |}
        | (b', None) =>
            {| fs := fs w; bundler := Some b'; total := total w;
               okCount := okCount w; errCount := errCount w; trace := trace w |}
        end
      else w
  | None => w
  end.

(** The variables of the loop on entry. *)
Definition startLoop (w : World) : Loop :=
  {| l_fs := fs w; l_n := 0; l_lastErr := None; l_attemptCnt := 0; l_trace := trace w |}.

(** The end of [fetchOne], from the exit of the loop on. *)
Definition finishFetch (d : Downloader) (w : World) (url outPath name : string)
    (env : FetchEnv) (ex : Exit) : Outcome * World :=
  match ex with
  | Panic st =>
      (Panicked,
       {| fs := l_fs st; bundler := bundler w; total := total w;
          okCount := okCount w; errCount := errCount w; trace := l_trace st |})
  | Left st =>
      let retries_ := max 0 (l_attemptCnt st - 1) in
      match l_lastErr st with
      | Some e =>
          (Returned {| SchemaVersion := 1; URL := url; Path := ""; Size := 0;
                       SHA256 := ""; StartedAt := started_at env;
                       FinishedAt := ""; OK := false; Error := err_msg e;
                       Retries := retries_; Status := "error" |},
           countErr w (l_fs st) (l_trace st))
      | None =>
          (* Verify checksum if provided *)
          let '(ok, sum) := verifyFile d (l_fs st) outPath url in
          if negb ok then
            (Returned {| SchemaVersion := 1; URL := url; Path := outPath;
                         Size := l_n st; SHA256 := sum;
                         StartedAt := started_at env;
                         FinishedAt := finished_at env; OK := ok;
                         Error := "checksum mismatch"; Retries := retries_;
                         Status := "error" |},
             countErr w (l_fs st) (l_trace st))
          else
            (Returned {| SchemaVersion := 1; URL := url; Path := outPath;
                         Size := l_n st; SHA256 := sum;
                         StartedAt := started_at env;
                         FinishedAt := finished_at env; OK := ok;
                         Error := ""; Retries := retries_; Status := "ok" |},
             handOff (countOK w (l_fs st) (l_trace st) "ok") url outPath name env)
      end
  end.

(** [fetchOne], as [Run] calls it (with a nil [filesCh]). *)
Definition fetchOne (d : Downloader) (w : World) (url : string) (env : FetchEnv)
  : Outcome * World :=
  let name := sanitizeName url in
  let crate := crateNameFromURL url in
  let crateDir := crateDirFor crate (outDir d) in
  match mkdir_err env with
  | Some e =>
      (Returned {| SchemaVersion := 1; URL := url; Path := ""; Size := 0; SHA256 := "";
                   StartedAt := started_at env; FinishedAt := ""; OK := false;
                   Error := err_msg e; Retries := 0; Status := "error" |},
       countErr w (fs w) (trace w))
  | None =>
      let outPath := filepath.Join [crateDir; name] in
      (* Skip if exists and checksum (if any) matches *)
      if bool_decide (is_Some (fs w !! outPath)) && fst (verifyFile d (fs w) outPath url) then
        (Returned {| SchemaVersion := 1; URL := url; Path := outPath; Size := 0;
                     SHA256 := ""; StartedAt := started_at env;
                     FinishedAt := finished_at env; OK := true;
                     Error := ""; Retries := 0; Status := "ok" |},
         countOK w (fs w) (trace w) "skipped")
      else
        (* Create file tmp then rename with retries for transient failures *)
        let tmpPath := outPath ++ ".part" in
        let attempts := max 1 (retries d) in
        finishFetch d w url outPath name env
          (fetchLoop d env url tmpPath outPath attempts (Z.to_nat attempts) 1
             (startLoop w))
  end.

(** ** [ReadChecksums] *)

(** [type ChecksumEntry struct] *)
Record ChecksumEntry := { ce_URL : string; ce_SHA256 : string }.

(** A line of the checksum file as [json.Unmarshal] reads it into a
    [ChecksumEntry]: [None] when it returns an error (a blank or malformed
    line), the entry otherwise (an absent field is the empty string). *)
Definition Line := option ChecksumEntry.

(** The body of the read loop for one line.  [mapLower] is what
    [strings.ToLower] does to a string that is not ASCII. *)
Definition addLine (mapLower : string -> string) (out : gmap string string) (l : Line)
  : gmap string string :=
  match l with
  | Some ce =>
      if negb (String.eqb (ce_URL ce) "") && negb (String.eqb (ce_SHA256 ce) "")
      then <[ce_URL ce := strings.ToLowerUnicode mapLower (ce_SHA256 ce)]> out
      else out
  | None => out
  end.

Definition readLines (mapLower : string -> string) (lines : list Line)
  : gmap string string :=
  fold_left (addLine mapLower) lines ∅.

(** [ReadChecksums].  [file] is what opening and reading [path] gives: an
    error of [os.Open], or the lines read and the error (if not [io.EOF])
    that ended the reading. *)
Definition ReadChecksums (mapLower : string -> string) (path : string)
    (file : (list Line * option error) + error)
  : option (gmap string string) * option error :=
  if String.eqb path "" then (Some ∅, None)
  else
    match file with
    | inr e => (None, Some e)
    | inl (lines, read_err) => (Some (readLines mapLower lines), read_err)
    end.

(** ** [Run] *)

(** A worker goroutine. *)
Inductive Worker :=
| Idle                                      (* receiving from urlsCh *)
| Fetching (u : string) (env : FetchEnv)    (* has received u, about to call fetchOne *)
| Sending (rec : ManifestRecord)            (* sending rec on resultsCh *)
| Exited.                                   (* urlsCh drained: wg.Done() *)

(** Where [Run] itself stands. *)
Inductive Phase :=
| PhWait            (* in wg.Wait() *)
| PhClosed          (* resultsCh closed, in doneCollect.Wait() *)
| PhCollected       (* the collector has left its loop *)
| PhReturned        (* Run has returned nil *)
| PhCrashed.        (* a goroutine has panicked: the process is gone *)

(** A URL to fetch together with what the world will answer while it is
    fetched. *)
Definition Job : Type := string * FetchEnv.

(** The goroutines of one [Run]: the feeder with the URLs it still has to
    send, the workers, the collector with the records it has encoded to
    the manifest, and the shared world. *)
Record RunState := {
  feed : list Job;
  urlsClosed : bool;
  workers : list Worker;
  manifest : list ManifestRecord;
  world : World;
  phase : Phase
}.


(** [d.incTotal()] *)
Definition incTotal (w : World) : World :=
  {| fs := fs w; bundler := bundler w; total := total w + 1;
     okCount := okCount w; errCount := errCount w; trace := trace w |}.

(** [d.bundler.Close()] at the end of [Run]. *)
Definition closeBundler (w : World) (e1 e2 e3 : option error) : World :=
  match bundler w with
  | Some b =>
      {| fs := fs w; bundler := Some (fst (Bundler.Close b e1 e2 e3));
         total := total w; okCount := okCount w; errCount := errCount w;
         trace := trace w |}
  | None => w
  end.

Definition setWorker (s : RunState) (i : nat) (wk : Worker) : list Worker :=
  <[i := wk]> (workers s).

(** One step of one goroutine.  The channels are unbuffered: a send and
    its receive are one step.  A call of [fetchOne] is one step. *)
Inductive step (d : Downloader) : RunState -> RunState -> Prop :=
| step_feed s i u env rest :              (* urlsCh <- u, received by worker i *)
    phase s = PhWait -> feed s = (u, env) :: rest -> workers s !! i = Some Idle ->
    step d s {| feed := rest; urlsClosed := urlsClosed s;
                workers := setWorker s i (Fetching u env);
                manifest := manifest s; world := world s; phase := phase s |}
| step_close s :                          (* close(urlsCh) *)
    phase s <> PhReturned -> phase s <> PhCrashed ->
    feed s = [] -> urlsClosed s = false ->
    step d s {| feed := feed s; urlsClosed := true; workers := workers s;
                manifest := manifest s; world := world s; phase := phase s |}
| step_fetch s i u env rec w' :           (* rec := d.fetchOne(ctxTimeout, u, nil) *)
    phase s = PhWait -> workers s !! i = Some (Fetching u env) ->
    fetchOne d (world s) u env = (Returned rec, w') ->
    step d s {| feed := feed s; urlsClosed := urlsClosed s;
                workers := setWorker s i (Sending rec);
                manifest := manifest s; world := w'; phase := phase s |}
| step_panic s i u env w' :               (* fetchOne panics *)
    phase s = PhWait -> workers s !! i = Some (Fetching u env) ->
    fetchOne d (world s) u env = (Panicked, w') ->
    step d s {| feed := feed s; urlsClosed := urlsClosed s; workers := workers s;
                manifest := manifest s; world := w'; phase := PhCrashed |}
| step_collect s i rec :                  (* resultsCh <- rec; enc.Encode(rec); d.incTotal() *)
    phase s = PhWait -> workers s !! i = Some (Sending rec) ->
    step d s {| feed := feed s; urlsClosed := urlsClosed s;
                workers := setWorker s i Idle;
                manifest := (manifest s ++ [rec])%list;
                world := incTotal (world s); phase := phase s |}
| step_exit s i :                         (* the range over urlsCh ends *)
    phase s = PhWait -> workers s !! i = Some Idle -> urlsClosed s = true ->
    step d s {| feed := feed s; urlsClosed := urlsClosed s;
                workers := setWorker s i Exited;
                manifest := manifest s; world := world s; phase := phase s |}
| step_wait s :                           (* wg.Wait() returns; close(resultsCh) *)
    phase s = PhWait -> Forall (fun wk => wk = Exited) (workers s) ->
    step d s {| feed := feed s; urlsClosed := urlsClosed s; workers := workers s;
                manifest := manifest s; world := world s; phase := PhClosed |}
| step_collected s :                      (* the range over resultsCh ends *)
    phase s = PhClosed ->
    step d s {| feed := feed s; urlsClosed := urlsClosed s; workers := workers s;
                manifest := manifest s; world := world s; phase := PhCollected |}
| step_return s e1 e2 e3 :                (* doneCollect.Wait() returns; d.bundler.Close(); return nil *)
    phase s = PhCollected ->
    step d s {| feed := feed s; urlsClosed := urlsClosed s; workers := workers s;
                manifest := manifest s; world := closeBundler (world s) e1 e2 e3;
                phase := PhReturned |}.

(** The states a run can be in. *)
Inductive reachable (d : Downloader) (s0 : RunState) : RunState -> Prop :=
| reach_start : reachable d s0 s0
| reach_step s s' : reachable d s0 s -> step d s s' -> reachable d s0 s'.




End downloader.
(** The shard rule as the specification words it: the list of directory
  names below the output root. *)
Module ShardRule.

Fixpoint take_chars (n : nat) (s : string) : string :=
  match n, s with
  | S n', String c s' => String c (take_chars n' s')
  | _, _ => EmptyString
  end.

Fixpoint drop_chars (n : nat) (s : string) : string :=
  match n, s with
  | S n', String _ s' => drop_chars n' s'
  | _, _ => s
  end.

Definition is_123 (c : ascii) : bool :=
  Ascii.eqb c "1" || Ascii.eqb c "2" || Ascii.eqb c "3".

Definition first_shard (name : string) : string :=
  match name with
  | String c1 (String c2 _) =>
      if is_123 c1 then take_chars 1 name
      else if Ascii.eqb c2 "-" then take_chars 2 name
      else take_chars 1 name
  | _ => take_chars 1 name
  end.

Definition second_shard (name : string) : string :=
  take_chars 2 (drop_chars (String.length (first_shard name)) name).

Definition shards (name : string) : list string :=
  if (String.length name <=? 3)%nat then [name]
  else [first_shard name; second_shard name].

End ShardRule.


(* ===================================================================== *)
(** * Predicates and inputs used in the statements below                  *)
(* ===================================================================== *)

Import downloader.

(** A line of the checksum file counts: both fields are there. *)
Definition validEntry (ce : ChecksumEntry) : Prop :=
  ce_URL ce <> "" /\ ce_SHA256 ce <> "".

(** No URL comes on two counting lines with digests that differ after
    lower-casing. *)
Definition consistent (mapLower : string -> string) (lines : list Line) : Prop :=
  forall ce1 ce2, In (Some ce1) lines -> In (Some ce2) lines ->
    validEntry ce1 -> validEntry ce2 -> ce_URL ce1 = ce_URL ce2 ->
    strings.ToLowerUnicode mapLower (ce_SHA256 ce1)
    = strings.ToLowerUnicode mapLower (ce_SHA256 ce2).

(** No counting line of [lines] names the URL [u]. *)
Definition unnamed (u : string) (lines : list Line) : Prop :=
  forall ce, In (Some ce) lines -> validEntry ce -> ce_URL ce <> u.

(** Lines of a checksum file: three for one URL, with the digests AA,
    bb and aa, and one for another URL. *)
Definition serdeEntry (digest : string) : ChecksumEntry :=
  {| ce_URL := "https://static.crates.io/crates/serde/serde-1.0.0.crate";
     ce_SHA256 := digest |}.
Definition line_AA : Line := Some (serdeEntry "AA").
Definition line_bb : Line := Some (serdeEntry "bb").
Definition line_aa : Line := Some (serdeEntry "aa").
Definition line_rand : Line :=
  Some {| ce_URL := "https://static.crates.io/crates/rand/rand-0.8.5.crate";
          ce_SHA256 := "0C" |}.

(** The inputs above are ASCII, so that lower-casing them never asks for
    the Unicode tables; this stands in for them there. *)
Definition noRunes : string -> string := fun s => s.

(** A call on a bundler: [AddFile] with the answers of the world, or
    [Close]. *)
Inductive BundlerOp :=
| OpAdd (filePath headerName : string) (env : Bundler.AddEnv)
| OpClose (tw_err zw_err file_err : option error).

Definition applyOp (b : Bundler.t) (op : BundlerOp) : Bundler.t :=
  match op with
  | OpAdd filePath headerName env => fst (Bundler.AddFile b filePath headerName env)
  | OpClose e1 e2 e3 => fst (Bundler.Close b e1 e2 e3)
  end.

Definition runOps (b : Bundler.t) (ops : list BundlerOp) : Bundler.t :=
  fold_left applyOp ops b.

(** The answers of a world in which everything works, for a file of
    [size] bytes. *)
Definition addOK (size : Z) : Bundler.AddEnv :=
  {| Bundler.stat := inl size; Bundler.create_err := None; Bundler.open_err := None;
     Bundler.header_err := None; Bundler.copied := size; Bundler.copy_err := None |}.




(** The number of HTTP requests in a trace, and the back-offs in it. *)
Definition requests (tr : list Event) : nat :=
  length (flat_map (fun e => match e with EvHttpGet _ => [e] | _ => [] end) tr).

Definition backoffs (tr : list Event) : list (Z * Z) :=
  flat_map (fun e => match e with EvRetrying k s => [(k, s)] | _ => [] end) tr.

(** The resume check of [fetchOne]: the file is there and [verifyFile]
    accepts it. *)
Definition resumable (d : Downloader) (w : World) (url : string) : bool :=
  bool_decide (is_Some (fs w !! outPathFor d url))
  && fst (verifyFile d (fs w) (outPathFor d url) url).

(** An attempt that fails and is tried again when an attempt is left: the
    temporary file can be made, and the request fails outside the context,
    or is answered with a status the code retries after, or with 200 and
    a body whose copy fails outside the context. *)
Definition retryableFailure (ae : AttemptEnv) : Prop :=
  create_err ae = None
  /\ ((exists e, do_result ae = inr e /\ is_ctx e = false)
      \/ (exists resp, do_result ae = inl resp /\ StatusCode resp <> 200%Z
                       /\ retryable (StatusCode resp) = true)
      \/ (exists resp e, do_result ae = inl resp /\ StatusCode resp = 200%Z
                         /\ copy_err resp = Some e /\ is_ctx e = false)).

(** ** Worlds and servers for the examples *)

Definition emptyWorld : World :=
  {| fs := ∅; bundler := None; total := 0; okCount := 0; errCount := 0; trace := [] |}.

Definition answer (status : Z) (body : list Byte.byte) : AttemptEnv :=
  {| create_err := None;
     do_result := inl {| StatusCode := status; body_written := body; copy_err := None |};
     rename_err := None; unix_nano := 0 |}.

(** A server that answers every request with [status] and [body]. *)
Definition serverAlways (status : Z) (body : list Byte.byte) : FetchEnv :=
  {| started_at := "2025-08-23T15:31:00Z"; finished_at := "2025-08-23T15:31:01Z";
     mkdir_err := None; request_ok := true;
     attempt_env := fun _ => answer status body;
     add_env := addOK (Z.of_nat (length body)) |}.

Definition serdeURL : string := "https://static.crates.io/crates/serde/serde-1.0.0.crate".
Definition serdeBytes : list Byte.byte := list_byte_of_string "serde 1.0.0 bytes".

Definition defaultDownloader : Downloader := NewDownloader "out" 64 (300 * 1000000000) ∅.

(** A downloader set to 37 attempts, with a timeout of one hour so that
    the context of a fetch outlasts them. *)
Definition patientDownloader : Downloader :=
  SetRetries (NewDownloader "out" 64 (3600 * 1000000000) ∅) 37.

(** The loop variables after attempt [k] has failed with [e] and its
    temporary file has been removed. *)
Definition failedAttempt (st : Loop) (tmpPath url : string) (k : Z) (e : error) : Loop :=
  {| l_fs := delete tmpPath (l_fs st); l_n := l_n st; l_lastErr := Some e;
     l_attemptCnt := k; l_trace := (l_trace st ++ [EvHttpGet url])%list |}.

(** The back-off after attempt [k], when an attempt is left. *)
Definition backedOff (d : Downloader) (env : FetchEnv) (attempts k : Z) (st : Loop) : Loop :=
  if (k <? attempts)%Z then
    {| l_fs := l_fs st; l_n := l_n st; l_lastErr := l_lastErr st;
       l_attemptCnt := l_attemptCnt st;
       l_trace := (l_trace st ++
         [EvRetrying k (sleepFor (backoff d k) (unix_nano (attempt_env env k)))])%list |}
  else st.

(** The back-off the loop takes after attempt [k]. *)
Definition sleepOf (d : Downloader) (env : FetchEnv) (k : Z) : Z * Z :=
  (k, sleepFor (backoff d k) (unix_nano (attempt_env env k))).


(** A second run over a mirror that has the file: the world after the
    download of [serdeURL], and a downloader that knows its digest. *)
Definition mirroredWorld : World :=
  {| fs := {[ "out/s/er/serde-1.0.0.crate" := serdeBytes ]}; bundler := None;
     total := 0; okCount := 0; errCount := 0; trace := [] |}.

Definition checkingDownloader : Downloader :=
  NewDownloader "out" 64 (300 * 1000000000) {[ serdeURL := sha256_hex serdeBytes ]}.

(** A server whose body stops after [part] when the deadline of the
    request passes. *)
Definition serverTimesOut (part : list Byte.byte) : FetchEnv :=
  {| started_at := "2025-08-23T15:31:00Z"; finished_at := "2025-08-23T15:36:00Z";
     mkdir_err := None; request_ok := true;
     attempt_env := fun _ =>
       {| create_err := None;
          do_result := inl {| StatusCode := 200; body_written := part;
                              copy_err := Some (Err "context deadline exceeded" true) |};
          rename_err := None; unix_nano := 0 |};
     add_env := addOK 0 |}.

(** A server that answers well while the rename of the temporary file
    fails. *)
Definition renameFails (body : list Byte.byte) : FetchEnv :=
  {| started_at := "2025-08-23T15:31:00Z"; finished_at := "2025-08-23T15:31:01Z";
     mkdir_err := None; request_ok := true;
     attempt_env := fun _ =>
       {| create_err := None;
          do_result := inl {| StatusCode := 200; body_written := body; copy_err := None |};
          rename_err := Some (Err "rename: permission denied" false); unix_nano := 0 |};
     add_env := addOK 0 |}.

(** No attempt gets a 200 whose body cannot be copied or whose temporary
    file cannot be renamed. *)
Definition copiesAndRenames (env : FetchEnv) : Prop :=
  forall k resp, do_result (attempt_env env k) = inl resp -> StatusCode resp = 200%Z ->
    copy_err resp = None /\ rename_err (attempt_env env k) = None.





(** The state in which [Run] has started its goroutines. *)
Definition started (d : Downloader) (w : World) (jobs : list Job) : RunState :=
  {| feed := jobs; urlsClosed := false;
     workers := replicate (Z.to_nat (concurrency d)) Idle;
     manifest := []; world := w; phase := PhWait |}.


(** The answers for a URL that [http.NewRequestWithContext] rejects. *)
Definition rejectedURL : FetchEnv :=
  {| started_at := "2025-08-23T15:31:00Z"; finished_at := "2025-08-23T15:31:01Z";
     mkdir_err := None; request_ok := false;
     attempt_env := fun _ => answer 200 [];
     add_env := addOK 0 |}.

(* ===================================================================== *)
(** * Properties                                                         *)
(* ===================================================================== *)

(** ** Sanity checks of the library models *)

Example sha256_empty :
  sha256_hex [] = "e3b0c44298fc1c149afbf4c8996fb92427ae41e4649b934ca495991b7852b855".
Proof. vm_compute. reflexivity. Qed.

Example sha256_abc :
  sha256_hex (list_byte_of_string "abc")
  = "ba7816bf8f01cfea414140de5dae2223b00361a396177a9cb410ff61f20015ad".
Proof. vm_compute. reflexivity. Qed.

Example sha256_two_blocks :
  sha256_hex (list_byte_of_string "abcdbcdecdefdefgefghfghighijhijkijkljklmklmnlmnomnopnopq")
  = "248d6a61d20638b8e5c026930c3e6039a33ce45964ff2167f6ecedd419db06c1".
Proof. vm_compute. reflexivity. Qed.

Example clean_examples :
  filepath.Clean "a//b/./c/.." = "a/b" /\ filepath.Clean "/../a" = "/a"
  /\ filepath.Clean "../../x" = "../../x" /\ filepath.Clean "" = "."
  /\ filepath.Join ["out"; ""; "s"] = "out/s" /\ filepath.Join [""; "ab"] = "ab".
Proof. repeat split; reflexivity. Qed.

(** The cases of the tests [TestCrateDirFor] and [TestSidecarCrateDirFor]. *)
Example crateDirFor_tests :
  downloader.crateDirFor "ab" "out" = "out/ab"
  /\ downloader.crateDirFor "abc" "out" = "out/abc"
  /\ downloader.crateDirFor "serde" "out" = "out/s/er"
  /\ downloader.crateDirFor "1serde" "out" = "out/1/se"
  /\ sidecar.CrateDirFor "serde" "out" = "out/s/er"
  /\ sidecar.CrateDirFor "ab" "out" = "out/ab".
Proof. repeat split; reflexivity. Qed.

Example sanitizeName_tests :
  downloader.sanitizeName "https://static.crates.io/crates/serde/serde-1.0.0.crate"
  = "serde-1.0.0.crate"
  /\ downloader.sanitizeName "https://example.com/x/file?foo=1&bar=2" = "file_foo=1_bar=2"
  /\ downloader.crateNameFromURL "https://static.crates.io/crates/serde/serde-1.0.0.crate"
     = "serde"
  /\ downloader.headerPathFor "https://static.crates.io/crates/serde/serde-1.0.0.crate"
       "serde-1.0.0.crate" = "static.crates.io/serde-1.0.0.crate".
Proof. repeat split; vm_compute; reflexivity. Qed.

(** ** The shard rule *)

Lemma prefix_one_char (c a : ascii) (s : string) :
  String.prefix (String c EmptyString) (String a s) = Ascii.eqb a c.
Proof.
  simpl. destruct (ascii_dec c a) as [->|Hne].
  - rewrite Ascii.eqb_refl. now destruct s.
  - symmetry. apply Ascii.eqb_neq. congruence.
Qed.

Lemma substring_0_0 (s : string) : String.substring 0 0 s = EmptyString.
Proof. now destruct s. Qed.

Lemma crateDirFor_same (name outDir : string) :
  downloader.crateDirFor name outDir = sidecar.CrateDirFor name outDir.
Proof. reflexivity. Qed.

Lemma crateDirFor_shards (name outDir : string) :
  downloader.crateDirFor name outDir
  = if String.eqb name "" then outDir
    else filepath.Join (outDir :: ShardRule.shards name).
Proof.
  unfold downloader.crateDirFor, ShardRule.shards.
  destruct (String.eqb name "") eqn:Hempty; [reflexivity|].
  destruct (String.length name <=? 3)%nat eqn:Hlen; [reflexivity|].
  destruct name as [|c1 [|c2 [|c3 [|c4 rest]]]]; try discriminate Hlen.
  unfold strings.HasPrefix. rewrite !prefix_one_char.
  unfold ShardRule.second_shard, ShardRule.first_shard, ShardRule.is_123.
  unfold strings.slice.
  destruct (Ascii.eqb c1 "1" || Ascii.eqb c1 "2" || Ascii.eqb c1 "3") eqn:H123.
  - cbn -[filepath.Join]. now rewrite ?substring_0_0.
  - cbn [String.length Nat.leb Nat.ltb andb String.get].
    destruct (Ascii.eqb c2 "-") eqn:Hdash.
    + apply Ascii.eqb_eq in Hdash. subst c2.
      rewrite bool_decide_eq_true_2 by reflexivity.
      cbn -[filepath.Join]. now rewrite ?substring_0_0.
    + rewrite bool_decide_eq_false_2.
      * cbn -[filepath.Join]. now rewrite ?substring_0_0.
      * intros [= ->]. now rewrite Ascii.eqb_refl in Hdash.
Qed.

(** C5. The shard-path resolver, in the downloader and in the sidecar
    generator alike, sends a crate name to the directory made of the
    output root and the shards the rule names: the name itself when it has
    at most three bytes; otherwise a first shard that is the first
    character for a name starting with 1, 2 or 3, the first two characters
    when the second one is a dash, the first character otherwise, and a
    second shard of the two characters that follow the first shard.  The
    name x-ray goes to x-/ra below the root. *)
Theorem shard_path_resolver (name outDir : string) :
  downloader.crateDirFor name outDir = sidecar.CrateDirFor name outDir
  /\ downloader.crateDirFor name outDir
     = (if String.eqb name "" then outDir
        else filepath.Join (outDir :: ShardRule.shards name))
  /\ ShardRule.shards "x-ray" = ["x-"; "ra"]
  /\ downloader.crateDirFor "x-ray" outDir = filepath.Join [outDir; "x-"; "ra"]
  /\ sidecar.CrateDirFor "x-ray" "out" = "out/x-/ra".
Proof.
  split; [apply crateDirFor_same|].
  split; [apply crateDirFor_shards|].
  repeat split; reflexivity.
Qed.
(** ** The checksum loader *)

Section ChecksumLines.

Variable mapLower : string -> string.

Lemma addLine_valid (out : gmap string string) (ce : ChecksumEntry) :
  validEntry ce ->
  addLine mapLower out (Some ce)
  = <[ce_URL ce := strings.ToLowerUnicode mapLower (ce_SHA256 ce)]> out.
Proof.
  intros [Hu Hs]. unfold addLine.
  apply String.eqb_neq in Hu, Hs. now rewrite Hu, Hs.
Qed.

Lemma addLine_invalid (out : gmap string string) (ce : ChecksumEntry) :
  ~ validEntry ce -> addLine mapLower out (Some ce) = out.
Proof.
  intros Hn. unfold addLine.
  destruct (String.eqb (ce_URL ce) "") eqn:Hu; [reflexivity|].
  destruct (String.eqb (ce_SHA256 ce) "") eqn:Hs; [reflexivity|].
  exfalso. apply Hn. split; now apply String.eqb_neq.
Qed.

Lemma validEntry_dec (ce : ChecksumEntry) : {validEntry ce} + {~ validEntry ce}.
Proof.
  unfold validEntry.
  destruct (string_dec (ce_URL ce) ""), (string_dec (ce_SHA256 ce) ""); tauto.
Qed.

(** Where a value of the map comes from: the starting map, or a line. *)
Lemma fold_addLine_source (lines : list Line) (m : gmap string string) (u v : string) :
  fold_left (addLine mapLower) lines m !! u = Some v ->
  m !! u = Some v
  \/ exists ce, In (Some ce) lines /\ validEntry ce /\ ce_URL ce = u
                /\ v = strings.ToLowerUnicode mapLower (ce_SHA256 ce).
Proof.
  revert m. induction lines as [|l lines IH]; intros m H; simpl in *.
  - now left.
  - apply IH in H as [H|(ce & Hin & Hv & Hu & Hval)].
    + destruct l as [ce|]; [|now left].
      destruct (validEntry_dec ce) as [Hv|Hv].
      * rewrite addLine_valid in H by assumption.
        destruct (decide (ce_URL ce = u)) as [<-|Hne].
        -- rewrite lookup_insert_eq in H. injection H as <-.
           right. exists ce. auto.
        -- rewrite lookup_insert_ne in H by assumption. now left.
      * rewrite addLine_invalid in H by assumption. now left.
    + right. exists ce. auto.
Qed.

(** A URL that a counting line names is in the map. *)
Lemma fold_addLine_present (lines : list Line) (m : gmap string string) (u : string) :
  (is_Some (m !! u)
   \/ exists ce, In (Some ce) lines /\ validEntry ce /\ ce_URL ce = u) ->
  is_Some (fold_left (addLine mapLower) lines m !! u).
Proof.
  revert m. induction lines as [|l lines IH]; intros m H; simpl.
  - destruct H as [H|(ce & [] & _)]. exact H.
  - apply IH. destruct H as [H|(ce & [Heq|Hin] & Hv & Hu)].
    + left. destruct l as [ce|]; [|exact H].
      destruct (validEntry_dec ce) as [Hv|Hv].
      * rewrite addLine_valid by assumption.
        destruct (decide (ce_URL ce = u)) as [<-|Hne].
        -- rewrite lookup_insert_eq. eauto.
        -- now rewrite lookup_insert_ne.
      * now rewrite addLine_invalid.
    + left. subst l. rewrite addLine_valid by assumption.
      subst u. rewrite lookup_insert_eq. eauto.
    + right. exists ce. auto.
Qed.

(** Lines that do not name a URL leave its entry alone. *)
Lemma fold_addLine_unnamed (lines : list Line) (m : gmap string string) (u : string) :
  unnamed u lines -> fold_left (addLine mapLower) lines m !! u = m !! u.
Proof.
  revert m. induction lines as [|l lines IH]; intros m Hun; simpl; [reflexivity|].
  rewrite IH by (intros ce Hin; apply Hun; now right).
  destruct l as [ce|]; [|reflexivity].
  destruct (validEntry_dec ce) as [Hv|Hv].
  - rewrite addLine_valid by assumption.
    apply lookup_insert_ne. apply Hun; [now left|assumption].
  - now rewrite addLine_invalid.
Qed.

Lemma readLines_source (lines : list Line) (u v : string) :
  readLines mapLower lines !! u = Some v ->
  exists ce, In (Some ce) lines /\ validEntry ce /\ ce_URL ce = u
             /\ v = strings.ToLowerUnicode mapLower (ce_SHA256 ce).
Proof.
  intros H. apply fold_addLine_source in H as [H|H]; [|exact H].
  now rewrite lookup_empty in H.
Qed.

(** The last counting line that names a URL gives its value. *)
Lemma readLines_last (before after : list Line) (ce : ChecksumEntry) :
  validEntry ce -> unnamed (ce_URL ce) after ->
  readLines mapLower (before ++ Some ce :: after) !! ce_URL ce
  = Some (strings.ToLowerUnicode mapLower (ce_SHA256 ce)).
Proof.
  intros Hv Hun. unfold readLines. rewrite fold_left_app. cbn [fold_left].
  rewrite fold_addLine_unnamed by assumption.
  rewrite addLine_valid by assumption. apply lookup_insert_eq.
Qed.

Lemma readLines_permutation (lines lines' : list Line) :
  consistent mapLower lines -> Permutation lines lines' ->
  readLines mapLower lines = readLines mapLower lines'.
Proof.
  intros Hc Hp. apply map_eq. intros u.
  destruct (readLines mapLower lines !! u) as [v|] eqn:H1.
  - apply readLines_source in H1 as (ce & Hin & Hv & Hu & ->).
    assert (Hs : is_Some (readLines mapLower lines' !! u)).
    { apply fold_addLine_present. right. exists ce.
      split; [|auto]. eapply Permutation_in; eauto. }
    destruct Hs as [v' H2]. rewrite H2.
    apply readLines_source in H2 as (ce' & Hin' & Hv' & Hu' & ->).
    f_equal. symmetry. apply Hc; auto; [|congruence].
    eapply Permutation_in; [symmetry|]; eauto.
  - destruct (readLines mapLower lines' !! u) as [v'|] eqn:H2; [|reflexivity].
    apply readLines_source in H2 as (ce' & Hin' & Hv' & Hu' & ->).
    assert (Hs : is_Some (readLines mapLower lines !! u)).
    { apply fold_addLine_present. right. exists ce'.
      split; [|auto]. eapply Permutation_in; [symmetry|]; eauto. }
    rewrite H1 in Hs. now destruct Hs.
Qed.

(** Moving a counting line to the end makes it the one that gives the
    value of its URL. *)
Lemma readLines_moved_last (lines : list Line) (ce : ChecksumEntry) :
  In (Some ce) lines -> validEntry ce ->
  exists lines', Permutation lines lines'
    /\ readLines mapLower lines' !! ce_URL ce
       = Some (strings.ToLowerUnicode mapLower (ce_SHA256 ce)).
Proof.
  intros Hin Hv. apply in_split in Hin as (l1 & l2 & ->).
  exists ((l1 ++ l2) ++ [Some ce])%list. split.
  - rewrite <- Permutation_middle. apply Permutation_cons_append.
  - apply readLines_last; [assumption|]. intros ce' [].
Qed.

(** Two counting lines for one URL whose digests differ after
    lower-casing: some order of the lines gives another map. *)
Lemma readLines_order_matters (lines : list Line) (ce1 ce2 : ChecksumEntry) :
  In (Some ce1) lines -> In (Some ce2) lines ->
  validEntry ce1 -> validEntry ce2 -> ce_URL ce1 = ce_URL ce2 ->
  strings.ToLowerUnicode mapLower (ce_SHA256 ce1)
  <> strings.ToLowerUnicode mapLower (ce_SHA256 ce2) ->
  exists lines', Permutation lines lines'
                 /\ readLines mapLower lines <> readLines mapLower lines'.
Proof.
  intros Hin1 Hin2 Hv1 Hv2 Hu Hne.
  destruct (readLines_moved_last lines ce1 Hin1 Hv1) as (la & Hpa & Ha).
  destruct (readLines_moved_last lines ce2 Hin2 Hv2) as (lb & Hpb & Hb).
  destruct (decide (readLines mapLower lines !! ce_URL ce1
                    = Some (strings.ToLowerUnicode mapLower (ce_SHA256 ce1))))
    as [Heq|Hdiff].
  - exists lb. split; [assumption|]. intros E.
    rewrite E, Hu, Hb in Heq. congruence.
  - exists la. split; [assumption|]. intros E.
    rewrite E in Hdiff. contradiction.
Qed.

End ChecksumLines.

(** C9, as the code has it, for every way [mapLower] of lower-casing the
    strings that are not ASCII, every path and every end of the reading.
    A line counts when both of its fields are there.
    - When no URL comes on two counting lines with digests that differ
      after lower-casing, [ReadChecksums] gives the same result for
      every order of the lines of its input.
    - Only then: if two counting lines name one URL with digests that
      differ after lower-casing, some order of the lines gives another
      map (for a path that is not empty).
    - On every input, a value of the map is the lower-cased sha256 field
      of a counting line of the input that names its key.
    - On every input (for a path that is not empty), the line read last
      wins: a counting line that no later counting line follows for the
      same URL gives the value of its URL, its lower-cased sha256
      field. *)
Theorem read_checksums_order (mapLower : string -> string) (path : string)
    (read_err : option downloader.error) :
  (forall lines lines' : list downloader.Line,
      consistent mapLower lines -> Permutation lines lines' ->
      downloader.ReadChecksums mapLower path (inl (lines, read_err))
      = downloader.ReadChecksums mapLower path (inl (lines', read_err)))
  /\ (forall (lines : list downloader.Line) (ce1 ce2 : downloader.ChecksumEntry),
        path <> "" ->
        In (Some ce1) lines -> In (Some ce2) lines ->
        validEntry ce1 -> validEntry ce2 ->
        downloader.ce_URL ce1 = downloader.ce_URL ce2 ->
        strings.ToLowerUnicode mapLower (downloader.ce_SHA256 ce1)
        <> strings.ToLowerUnicode mapLower (downloader.ce_SHA256 ce2) ->
        exists lines', Permutation lines lines'
          /\ downloader.ReadChecksums mapLower path (inl (lines, read_err))
             <> downloader.ReadChecksums mapLower path (inl (lines', read_err)))
  /\ (forall (lines : list downloader.Line) (m : gmap string string) (u v : string),
        fst (downloader.ReadChecksums mapLower path (inl (lines, read_err))) = Some m ->
        m !! u = Some v ->
        exists ce, In (Some ce) lines /\ validEntry ce /\ downloader.ce_URL ce = u
                   /\ v = strings.ToLowerUnicode mapLower (downloader.ce_SHA256 ce))
  /\ (forall (before after : list downloader.Line) (ce : downloader.ChecksumEntry)
             (m : gmap string string),
        path <> "" ->
        validEntry ce -> unnamed (downloader.ce_URL ce) after ->
        fst (downloader.ReadChecksums mapLower path
               (inl ((before ++ Some ce :: after)%list, read_err))) = Some m ->
        m !! downloader.ce_URL ce
        = Some (strings.ToLowerUnicode mapLower (downloader.ce_SHA256 ce))).
Proof.
  unfold downloader.ReadChecksums.
  destruct (String.eqb path "") eqn:Hpath.
  - apply String.eqb_eq in Hpath. repeat split.
    + intros lines ce1 ce2 Hp. contradiction.
    + intros lines m u v [= <-] H. now rewrite lookup_empty in H.
    + intros before after ce m Hp. contradiction.
  - repeat split.
    + intros lines lines' Hc Hp.
      now rewrite (readLines_permutation mapLower lines lines').
    + intros lines ce1 ce2 _ Hin1 Hin2 Hv1 Hv2 Hu Hne.
      destruct (readLines_order_matters mapLower lines ce1 ce2)
        as (lines' & Hp & Hd); try assumption.
      exists lines'. split; [assumption|]. intros E. apply Hd.
      now injection E.
    + intros lines m u v [= <-] H. now apply readLines_source in H.
    + intros before after ce m _ Hv Hun [= <-]. now apply readLines_last.
Qed.

(** The theorem at work on a file of four lines and a blank one, read
    in two orders; and on a file in which two digests for one URL
    conflict. *)
Lemma read_checksums_order_witness :
  consistent noRunes [line_AA; line_rand; None; line_aa]
  /\ Permutation [line_AA; line_rand; None; line_aa] [line_aa; None; line_rand; line_AA]
  /\ downloader.ReadChecksums noRunes "sums.jsonl"
       (inl ([line_AA; line_rand; None; line_aa], None))
     = downloader.ReadChecksums noRunes "sums.jsonl"
         (inl ([line_aa; None; line_rand; line_AA], None))
  /\ (exists lines', Permutation [line_AA; line_bb] lines'
        /\ downloader.ReadChecksums noRunes "sums.jsonl" (inl ([line_AA; line_bb], None))
           <> downloader.ReadChecksums noRunes "sums.jsonl" (inl (lines', None)))
  /\ (exists m,
        fst (downloader.ReadChecksums noRunes "sums.jsonl"
               (inl ([line_AA; line_bb; line_rand; None], None))) = Some m
        /\ m !! downloader.ce_URL (serdeEntry "bb") = Some "bb").
Proof.
  pose proof (read_checksums_order noRunes "sums.jsonl" None)
    as (Hperm & Honly & _ & Hlast).
  assert (Hpath : "sums.jsonl" <> "") by discriminate.
  assert (Hc : consistent noRunes [line_AA; line_rand; None; line_aa]).
  { intros ce1 ce2 H1 H2 _ _ Hu. simpl in H1, H2.
    destruct H1 as [H1|[H1|[H1|[H1|[]]]]], H2 as [H2|[H2|[H2|[H2|[]]]]];
      try discriminate; injection H1 as <-; injection H2 as <-;
      try reflexivity; discriminate Hu. }
  assert (Hp : Permutation [line_AA; line_rand; None; line_aa]
                 [line_aa; None; line_rand; line_AA])
    by exact (Permutation_rev [line_AA; line_rand; None; line_aa]).
  assert (Hv : forall d, d <> "" -> validEntry (serdeEntry d)).
  { intros d Hd. split; [discriminate|exact Hd]. }
  split; [exact Hc|]. split; [exact Hp|]. split; [exact (Hperm _ _ Hc Hp)|]. split.
  - apply (Honly [line_AA; line_bb] (serdeEntry "AA") (serdeEntry "bb") Hpath).
    + now left.
    + right. now left.
    + apply Hv. discriminate.
    + apply Hv. discriminate.
    + reflexivity.
    + discriminate.
  - eexists. split; [reflexivity|].
    apply (Hlast [line_AA] [line_rand; None] (serdeEntry "bb") _ Hpath).
    + apply Hv. discriminate.
    + intros ce [H|[H|[]]] _; [|discriminate]. injection H as <-. discriminate.
    + reflexivity.
Defined.

(** C9, as the claim has it, fails, however the strings that are not
    ASCII are lower-cased: the later of two lines for one URL wins, so
    that swapping them changes the map. *)
Lemma later_checksum_line_wins :
  ~ (exists mapLower : string -> string,
       forall lines lines' : list downloader.Line,
         Permutation lines lines' ->
         downloader.ReadChecksums mapLower "sums.jsonl" (inl (lines, None))
         = downloader.ReadChecksums mapLower "sums.jsonl" (inl (lines', None))).
Proof.
  intros [mapLower H].
  specialize (H [line_AA; line_bb] [line_bb; line_AA] (perm_swap _ _ _)).
  apply (f_equal (fun r : option (gmap string string) * option downloader.error =>
           match fst r with
           | Some m => m !! "https://static.crates.io/crates/serde/serde-1.0.0.crate"
           | None => None
           end)) in H.
  vm_compute in H. discriminate H.
Qed.

(** ** The rolling bundler *)

(** The test [TestBundlerRotation]: a threshold of zero rotates on every
    file that is not empty. *)
Example threshold_zero_rotates_each_file :
  exists b0, Bundler.NewBundler true "bundles" 0 None None = inl b0
  /\ Bundler.created (Bundler.history
       (runOps b0 [OpAdd "a.txt" "a.txt" (addOK 1); OpAdd "b.txt" "b.txt" (addOK 1024);
                   OpClose None None None]))
     = ["bundle-0000.tar.zst"; "bundle-0001.tar.zst"; "bundle-0002.tar.zst"].
Proof. eexists. split; [reflexivity|]. vm_compute. reflexivity. Qed.

Example fmt04d_examples :
  Bundler.fmt04d 0 = "0000" /\ Bundler.fmt04d 12 = "0012" /\ Bundler.fmt04d 4321 = "4321"
  /\ Bundler.fmt04d (10 * 1234 + 5) = "12345".
Proof. repeat split; vm_compute; reflexivity. Qed.

(** *** Bundle names are one per index *)

Lemma string_length_app (a b : string) :
  String.length (a ++ b) = (String.length a + String.length b)%nat.
Proof. induction a as [|c a IH]; simpl; [reflexivity|now rewrite IH]. Qed.









(** *** What holds of a bundler that [NewBundler] has made *)















(** *** The index only advances *)







(** *** Rotation *)

Lemma wrap64_id (z : Z) : (- 2 ^ 63 <= z < 2 ^ 63)%Z -> wrap64 z = z.
Proof. intros H. unfold wrap64. rewrite Z.mod_small; lia. Qed.








(** ** The retry loop *)

Lemma retryable_spec (s : Z) :
  retryable s = true <-> (s = 408 \/ s = 425 \/ s = 429 \/ 500 <= s)%Z.
Proof. unfold retryable. rewrite !orb_true_iff, !Z.eqb_eq, Z.geb_le. tauto. Qed.

Lemma tmp_removed (m : gmap string (list Byte.byte)) (tmpPath : string) (x : list Byte.byte) :
  delete tmpPath (<[tmpPath := x]> (delete tmpPath m)) = delete tmpPath m.
Proof. now rewrite delete_insert_eq, delete_delete_eq. Qed.

(** One attempt that is answered with a status other than 200. *)
Lemma fetchLoop_status (d : Downloader) (env : FetchEnv) (url tmpPath outPath : string)
    (attempts : Z) (fuel : nat) (k : Z) (st : Loop) (resp : Response) :
  create_err (attempt_env env k) = None -> request_ok env = true ->
  do_result (attempt_env env k) = inl resp -> StatusCode resp <> 200%Z ->
  fetchLoop d env url tmpPath outPath attempts (S fuel) k st
  = if retryable (StatusCode resp)
    then fetchLoop d env url tmpPath outPath attempts fuel (k + 1)
           (backedOff d env attempts k
              (failedAttempt st tmpPath url k (httpError (StatusCode resp))))
    else Left (failedAttempt st tmpPath url k (httpError (StatusCode resp))).
Proof.
  intros Hc Hr Hd Hs. cbn [fetchLoop]. rewrite Hc, Hr, Hd. cbn [negb].
  apply Z.eqb_neq in Hs. rewrite Hs. rewrite tmp_removed.
  fold (failedAttempt st tmpPath url k (httpError (StatusCode resp))).
  destruct (retryable (StatusCode resp)); [|reflexivity].
  cbn [negb]. unfold afterAttempt, backedOff.
  cbn [failedAttempt l_lastErr httpError is_ctx].
  destruct (k <? attempts)%Z; reflexivity.
Qed.

(** [fetchOne] when the directory can be made and the resume check does
    not pass: the loop, then the end. *)
Lemma fetchOne_download (d : Downloader) (w : World) (url : string) (env : FetchEnv) :
  mkdir_err env = None -> resumable d w url = false ->
  fetchOne d w url env
  = finishFetch d w url (outPathFor d url) (sanitizeName url) env
      (fetchLoop d env url (tmpPathFor d url) (outPathFor d url)
         (max 1 (retries d)) (Z.to_nat (max 1 (retries d))) 1 (startLoop w)).
Proof.
  intros Hm Hr. unfold fetchOne. rewrite Hm.
  change (filepath.Join [crateDirFor (crateNameFromURL url) (outDir d); sanitizeName url])
    with (outPathFor d url).
  change (bool_decide (is_Some (fs w !! outPathFor d url))
          && fst (verifyFile d (fs w) (outPathFor d url) url))
    with (resumable d w url).
  now rewrite Hr.
Qed.

Lemma requests_app (a b : list Event) : requests (a ++ b) = (requests a + requests b)%nat.
Proof. unfold requests. now rewrite flat_map_app, length_app. Qed.

Lemma backoffs_app (a b : list Event) : backoffs (a ++ b) = (backoffs a ++ backoffs b)%list.
Proof. apply flat_map_app. Qed.

(** One attempt that fails and may be tried again. *)
Lemma fetchLoop_retry (d : Downloader) (env : FetchEnv) (url tmpPath outPath : string)
    (attempts : Z) (fuel : nat) (k : Z) (st : Loop) :
  retryableFailure (attempt_env env k) -> request_ok env = true ->
  exists st1,
    fetchLoop d env url tmpPath outPath attempts (S fuel) k st
    = fetchLoop d env url tmpPath outPath attempts fuel (k + 1)
        (backedOff d env attempts k st1)
    /\ l_attemptCnt st1 = k
    /\ l_trace st1 = (l_trace st ++ [EvHttpGet url])%list
    /\ is_Some (l_lastErr st1).
Proof.
  intros (Hc & [(e & Hd & He)|[(resp & Hd & Hs & Hr)|(resp & e & Hd & Hs & Hce & He)]]) Hreq.
  - exists (failedAttempt st tmpPath url k e).
    split; [|split; [|split]]; try reflexivity; [|cbn; eauto].
    cbn [fetchLoop]. rewrite Hc, Hreq, Hd. cbn [negb]. rewrite tmp_removed.
    fold (failedAttempt st tmpPath url k e).
    unfold afterAttempt. cbn [failedAttempt l_lastErr]. rewrite He.
    unfold backedOff. cbn [l_fs l_n l_lastErr l_attemptCnt l_trace].
    destruct (k <? attempts)%Z; reflexivity.
  - exists (failedAttempt st tmpPath url k (httpError (StatusCode resp))).
    split; [|split; [|split]]; try reflexivity; [|cbn; eauto].
    rewrite (fetchLoop_status _ _ _ _ _ _ _ _ _ resp) by assumption.
    now rewrite Hr.
  - exists {| l_fs := <[tmpPath := body_written resp]>
                        (<[tmpPath := []]> (delete tmpPath (l_fs st)));
              l_n := Z.of_nat (length (body_written resp));
              l_lastErr := Some e; l_attemptCnt := k;
              l_trace := (l_trace st ++ [EvHttpGet url])%list |}.
    split; [|split; [|split]]; try reflexivity; [|cbn; eauto].
    cbn [fetchLoop]. rewrite Hc, Hreq, Hd, Hs, Hce. cbn [negb Z.eqb Pos.eqb].
    unfold afterAttempt. cbn [l_lastErr]. rewrite He.
    unfold backedOff. cbn [l_fs l_n l_lastErr l_attemptCnt l_trace].
    destruct (k <? attempts)%Z; reflexivity.
Qed.

Lemma backedOff_fields (d : Downloader) (env : FetchEnv) (attempts k : Z) (st : Loop) :
  l_attemptCnt (backedOff d env attempts k st) = l_attemptCnt st
  /\ l_lastErr (backedOff d env attempts k st) = l_lastErr st
  /\ requests (l_trace (backedOff d env attempts k st)) = requests (l_trace st)
  /\ backoffs (l_trace (backedOff d env attempts k st))
     = (backoffs (l_trace st)
        ++ if (k <? attempts)%Z
           then [(k, sleepFor (backoff d k) (unix_nano (attempt_env env k)))]
           else [])%list.
Proof.
  unfold backedOff. destruct (k <? attempts)%Z; cbn [l_attemptCnt l_lastErr l_trace].
  - rewrite requests_app, backoffs_app. cbn. repeat split; lia.
  - now rewrite app_nil_r.
Qed.

(** All the attempts from [k] on fail and may be tried again: the loop
    runs to its last attempt. *)
Lemma fetchLoop_exhausts (d : Downloader) (env : FetchEnv) (url tmpPath outPath : string)
    (attempts : Z) (fuel : nat) :
  request_ok env = true ->
  forall (k : Z) (st : Loop),
    (k + Z.of_nat fuel = attempts)%Z ->
    (forall j, (k <= j <= attempts)%Z -> retryableFailure (attempt_env env j)) ->
    exists st',
      fetchLoop d env url tmpPath outPath attempts (S fuel) k st = Left st'
      /\ l_attemptCnt st' = attempts
      /\ is_Some (l_lastErr st')
      /\ requests (l_trace st') = (requests (l_trace st) + S fuel)%nat
      /\ backoffs (l_trace st')
         = (backoffs (l_trace st) ++ (sleepOf d env <$> seqZ k (attempts - k)))%list.
Proof.
  intros Hreq. induction fuel as [|fuel IH]; intros k st Hk Hall.
  - destruct (fetchLoop_retry d env url tmpPath outPath attempts 0 k st)
      as (st1 & Heq & Hcnt & Htr & Herr); [apply Hall; lia|assumption|].
    destruct (backedOff_fields d env attempts k st1) as (Hb1 & Hb2 & Hb3 & Hb4).
    eexists. split; [rewrite Heq; reflexivity|].
    rewrite Hb1, Hb2, Hb3, Hb4, Htr, requests_app, backoffs_app.
    replace (k <? attempts)%Z with false by (symmetry; apply Z.ltb_ge; lia).
    replace (attempts - k)%Z with 0%Z by lia.
    cbn. rewrite !app_nil_r. repeat split; try assumption; lia.
  - destruct (fetchLoop_retry d env url tmpPath outPath attempts (S fuel) k st)
      as (st1 & Heq & Hcnt & Htr & Herr); [apply Hall; lia|assumption|].
    destruct (backedOff_fields d env attempts k st1) as (Hb1 & Hb2 & Hb3 & Hb4).
    destruct (IH (k + 1)%Z (backedOff d env attempts k st1)) as (st' & Hl & Hc' & He' & Hr' & Hb');
      [lia|intros j Hj; apply Hall; lia|].
    exists st'. split; [now rewrite Heq|].
    split; [assumption|]. split; [assumption|]. split.
    + rewrite Hr', Hb3, Htr, requests_app. cbn. lia.
    + rewrite Hb', Hb4, Htr, backoffs_app.
      replace (k <? attempts)%Z with true by (symmetry; apply Z.ltb_lt; lia).
      cbn [backoffs flat_map app]. rewrite app_nil_r, <- app_assoc.
      f_equal. rewrite (seqZ_cons k (attempts - k)) by lia.
      cbn [fmap list_fmap app]. unfold sleepOf at 3.
      repeat f_equal; lia.
Qed.

Lemma attempts_positive (r : Z) :
  exists f : nat, Z.to_nat (max 1 r) = S f /\ (1 + Z.of_nat f = max 1 r)%Z.
Proof.
  exists (Z.to_nat (max 1 r - 1)). unfold max.
  destruct (Z.gtb_spec 1 r); lia.
Qed.

Lemma requests_processed (tr : list Event) (label : string) :
  requests (tr ++ [EvProcessed label]) = requests tr.
Proof. rewrite requests_app. cbn. lia. Qed.

(** C6. In the loop of [fetchOne], the statuses retried after are 408,
    425, 429 and those from 500 on.  An attempt answered with such a
    status has its temporary file removed and, when an attempt is left,
    backs off and goes on with the next attempt; an attempt answered with
    any other status that is not 200 has its temporary file removed and
    ends the loop at once.  A URL that is always answered with 404 makes
    one request and gives a record with ok false, retries 0 and the error
    "HTTP 404". *)
Theorem http_status_handling (d : Downloader) (env : FetchEnv) (url : string) :
  (forall s : Z,
      retryable s = true <-> (s = 408 \/ s = 425 \/ s = 429 \/ 500 <= s)%Z)
  /\ (forall (tmpPath outPath : string) (attempts : Z) (fuel : nat) (k : Z)
             (st : Loop) (resp : Response),
        create_err (attempt_env env k) = None -> request_ok env = true ->
        do_result (attempt_env env k) = inl resp -> StatusCode resp <> 200%Z ->
        let failed := failedAttempt st tmpPath url k (httpError (StatusCode resp)) in
        l_fs failed !! tmpPath = None
        /\ fetchLoop d env url tmpPath outPath attempts (S fuel) k st
           = if retryable (StatusCode resp)
             then fetchLoop d env url tmpPath outPath attempts fuel (k + 1)
                    (backedOff d env attempts k failed)
             else Left failed)
  /\ (forall w : World,
        mkdir_err env = None -> resumable d w url = false -> request_ok env = true ->
        (forall k, create_err (attempt_env env k) = None
                   /\ exists resp, do_result (attempt_env env k) = inl resp
                                   /\ StatusCode resp = 404%Z) ->
        exists rec w',
          fetchOne d w url env = (Returned rec, w')
          /\ OK rec = false /\ Retries rec = 0%Z /\ Status rec = "error"
          /\ Error rec = "HTTP 404"
          /\ trace w' = (trace w ++ [EvHttpGet url; EvProcessed "error"])%list
          /\ requests (trace w') = S (requests (trace w))
          /\ backoffs (trace w') = backoffs (trace w)
          /\ fs w' !! tmpPathFor d url = None).
Proof.
  split; [apply retryable_spec|]. split.
  - intros tmpPath outPath attempts fuel k st resp Hc Hr Hd Hs failed.
    split; [apply lookup_delete_eq|].
    now apply fetchLoop_status.
  - intros w Hm Hres Hreq Hall.
    destruct (Hall 1%Z) as (Hc & resp & Hd & Hs).
    destruct (attempts_positive (retries d)) as (f & Hf & _).
    rewrite fetchOne_download, Hf by assumption.
    rewrite (fetchLoop_status _ _ _ _ _ _ _ _ _ resp)
      by (try assumption; rewrite Hs; discriminate).
    rewrite Hs. cbn [retryable Z.eqb Pos.eqb Z.geb Z.compare Pos.compare Pos.compare_cont orb].
    cbn [finishFetch failedAttempt l_lastErr l_attemptCnt l_fs l_trace].
    eexists. eexists. split; [reflexivity|].
    cbn [OK Retries Status Error countErr trace fs httpError err_msg].
    repeat split.
    + now rewrite <- app_assoc.
    + rewrite requests_processed, requests_app. cbn [startLoop l_trace].
      change (requests [EvHttpGet url]) with 1%nat. lia.
    + now rewrite !backoffs_app, !app_nil_r.
    + apply lookup_delete_eq.
Qed.

Lemma http_status_handling_witness :
  exists rec w',
    fetchOne defaultDownloader emptyWorld serdeURL (serverAlways 404 []) = (Returned rec, w')
    /\ OK rec = false /\ Retries rec = 0%Z /\ requests (trace w') = 1%nat.
Proof.
  destruct (http_status_handling defaultDownloader (serverAlways 404 []) serdeURL)
    as (_ & _ & H404).
  destruct (H404 emptyWorld) as (rec & w' & Hf & Hok & Hret & _ & _ & _ & Hreq & _).
  - reflexivity.
  - vm_compute. reflexivity.
  - reflexivity.
  - intros k. split; [reflexivity|]. eexists. split; reflexivity.
  - exists rec, w'. auto.
Defined.

(** C7, as the code has it.  When every attempt for a URL fails and may
    be tried again (the server answers 500 every time, say), [fetchOne]
    makes as many requests as the greater of 1 and the configured number
    of attempts, and the retries field of its record is that number less
    one.  For a configured number of at least 1 these are the configured
    number and the configured number less one; the default is 6. *)
Theorem retries_exhausted (d : Downloader) (w : World) (url : string) (env : FetchEnv) :
  mkdir_err env = None -> resumable d w url = false -> request_ok env = true ->
  (forall j, (1 <= j <= max 1 (retries d))%Z -> retryableFailure (attempt_env env j)) ->
  exists rec w',
    fetchOne d w url env = (Returned rec, w')
    /\ requests (trace w') = (requests (trace w) + Z.to_nat (max 1 (retries d)))%nat
    /\ Retries rec = (max 1 (retries d) - 1)%Z
    /\ OK rec = false /\ Status rec = "error"
    /\ backoffs (trace w')
       = (backoffs (trace w)
          ++ (sleepOf d env <$> seqZ 1 (max 1 (retries d) - 1)))%list
    /\ ((1 <= retries d)%Z ->
        requests (trace w') = (requests (trace w) + Z.to_nat (retries d))%nat
        /\ Retries rec = (retries d - 1)%Z)
    /\ retries (NewDownloader (outDir d) (concurrency d) (timeout d) (checksums d)) = 6%Z.
Proof.
  intros Hm Hres Hreq Hall.
  destruct (attempts_positive (retries d)) as (f & Hf & Hfz).
  rewrite fetchOne_download, Hf by assumption.
  destruct (fetchLoop_exhausts d env url (tmpPathFor d url) (outPathFor d url)
              (max 1 (retries d)) f Hreq 1%Z (startLoop w) Hfz Hall)
    as (st' & Hl & Hcnt & [e He] & Hr & Hb).
  rewrite Hl. cbn [finishFetch]. rewrite He, Hcnt.
  eexists. eexists. split; [reflexivity|].
  cbn [Retries OK Status countErr trace].
  assert (Hmax : max 0 (max 1 (retries d) - 1) = (max 1 (retries d) - 1)%Z).
  { unfold max. destruct (Z.gtb_spec 1 (retries d));
      [reflexivity|destruct (Z.gtb_spec 0 (retries d - 1)); lia]. }
  assert (Hreqs : requests (l_trace st' ++ [EvProcessed "error"])
                  = (requests (trace w) + S f)%nat).
  { rewrite requests_processed, Hr. reflexivity. }
  split; [exact Hreqs|]. split; [exact Hmax|].
  split; [reflexivity|]. split; [reflexivity|]. split; [|split; [|reflexivity]].
  - rewrite backoffs_app, Hb. cbn [startLoop l_trace]. apply app_nil_r.
  - intros Hge. assert (Hone : max 1 (retries d) = retries d).
    { unfold max. destruct (Z.gtb_spec 1 (retries d)); lia. }
    rewrite Hreqs, Hmax, Hone. split; [|reflexivity].
    rewrite <- Hf, Hone. reflexivity.
Qed.

Lemma retries_exhausted_witness :
  exists rec w',
    fetchOne defaultDownloader emptyWorld serdeURL (serverAlways 500 []) = (Returned rec, w')
    /\ requests (trace w') = 6%nat /\ Retries rec = 5%Z.
Proof.
  destruct (retries_exhausted defaultDownloader emptyWorld serdeURL (serverAlways 500 []))
    as (rec & w' & Hf & Hreq & Hret & _).
  - reflexivity.
  - vm_compute. reflexivity.
  - reflexivity.
  - intros j _. split; [reflexivity|]. right. left.
    eexists. repeat split. discriminate.
  - exists rec, w'. auto.
Defined.

(** C7, as the claim has it, fails for a configured number below 1: with
    [-retries 0] one request is made, not none, and the retries field is
    0, not -1. *)
Lemma zero_retries_makes_one_attempt :
  let d := SetRetries defaultDownloader 0 in
  exists rec w',
    fetchOne d emptyWorld serdeURL (serverAlways 500 []) = (Returned rec, w')
    /\ retries d = 0%Z
    /\ requests (trace w') = 1%nat /\ requests (trace w') <> Z.to_nat (retries d)
    /\ Retries rec = 0%Z /\ Retries rec <> (retries d - 1)%Z.
Proof.
  eexists. eexists. split; [vm_compute; reflexivity|].
  cbn. repeat split; discriminate.
Qed.

(** ** The back-off *)

Lemma jitter_range (nano : Z) : (512 <= jitter_num nano < 1536)%Z.
Proof.
  unfold jitter_num. change 1023%Z with (Z.ones 10).
  rewrite Z.land_ones by lia.
  pose proof (Z.mod_pos_bound nano (2 ^ 10)). lia.
Qed.

(** While the shifted base stays in the range of [int64], the back-off is
    the base doubled once per attempt made before and capped, and the
    sleep is its product with a jitter factor [j / 1024], [512 <= j < 1536],
    cut to whole nanoseconds. *)
Lemma backoff_in_range (d : Downloader) (k nano : Z) :
  (0 <= retryBase d)%Z -> (1 <= k)%Z -> (retryBase d * 2 ^ (k - 1) < 2 ^ 63)%Z ->
  backoff d k = Z.min (retryBase d * 2 ^ (k - 1)) (retryMax d)
  /\ (512 <= jitter_num nano < 1536)%Z
  /\ sleepFor (backoff d k) nano
     = (Z.min (retryBase d * 2 ^ (k - 1)) (retryMax d) * jitter_num nano ÷ 1024)%Z.
Proof.
  intros Hb Hk Hr.
  assert (Hbk : backoff d k = Z.min (retryBase d * 2 ^ (k - 1)) (retryMax d)).
  { unfold backoff, shl64. rewrite Z.shiftl_mul_pow2 by lia.
    rewrite wrap64_id by (split; [|assumption];
      pose proof (Z.pow_pos_nonneg 2 (k - 1)); nia).
    destruct (Z.gtb_spec (retryBase d * 2 ^ (k - 1)) (retryMax d)); lia. }
  split; [exact Hbk|]. split; [apply jitter_range|].
  unfold sleepFor. now rewrite Hbk.
Qed.

(** The defaults: 500 ms, doubled per attempt, capped at 30 s. *)
Example backoff_defaults :
  map (backoff defaultDownloader) [1; 2; 3; 4; 5; 6; 7; 8]%Z
  = [500000000; 1000000000; 2000000000; 4000000000; 8000000000; 16000000000;
     30000000000; 30000000000]%Z.
Proof. vm_compute. reflexivity. Qed.

(** C10 at its failing input.  With 37 attempts configured and the
    default base and cap, the shift of the base by 35 places at attempt 36
    leaves the range of [int64]: the back-off is negative, not the cap of
    30 s, and the sleep is negative for every jitter. *)
Theorem backoff_overflows :
  let d := patientDownloader in
  retryBase d = 500000000%Z /\ retryMax d = 30000000000%Z
  /\ backoff d 35 = 30000000000%Z
  /\ Z.min (retryBase d * 2 ^ (36 - 1)) (retryMax d) = 30000000000%Z
  /\ backoff d 36 = (-1266874889709551616)%Z
  /\ (forall nano, sleepFor (backoff d 36) nano < 0)%Z
  /\ exists rec w',
       fetchOne d emptyWorld serdeURL (serverAlways 500 []) = (Returned rec, w')
       /\ Retries rec = 36%Z
       /\ In (36%Z, sleepFor (backoff d 36) 0) (backoffs (trace w')).
Proof.
  cbv zeta.
  assert (Hb : backoff patientDownloader 36 = (-1266874889709551616)%Z)
    by (vm_compute; reflexivity).
  repeat split; try (vm_compute; reflexivity).
  - intros nano. rewrite Hb. unfold sleepFor.
    pose proof (jitter_range nano) as Hj.
    rewrite <- (Z.opp_involutive (-1266874889709551616 * jitter_num nano)).
    rewrite Z.quot_opp_l by lia.
    assert (1 <= (- (-1266874889709551616 * jitter_num nano)) ÷ 1024)%Z; [|lia].
    apply Z.quot_le_lower_bound; lia.
  - eexists. eexists. split; [vm_compute; reflexivity|].
    split; [reflexivity|]. vm_compute. do 35 right. left. reflexivity.
Qed.

(** ** The resume check *)

Lemma resumable_matching (d : Downloader) (w : World) (url want : string)
    (content : list Byte.byte) :
  fs w !! outPathFor d url = Some content ->
  checksums d !! url = Some want ->
  strings.EqualFold want (sha256_hex content) = true ->
  resumable d w url = true.
Proof.
  intros Hf Hc He. unfold resumable, verifyFile. rewrite Hf, Hc.
  rewrite bool_decide_eq_true_2 by eauto.
  destruct (negb (want =? "")); [exact He|reflexivity].
Qed.

Lemma fetchOne_resumed (d : Downloader) (w : World) (url : string) (env : FetchEnv) :
  mkdir_err env = None -> resumable d w url = true ->
  fetchOne d w url env
  = (Returned {| SchemaVersion := 1; URL := url; Path := outPathFor d url; Size := 0;
                 SHA256 := ""; StartedAt := started_at env;
                 FinishedAt := finished_at env; OK := true; Error := "";
                 Retries := 0; Status := "ok" |},
     countOK w (fs w) (trace w) "skipped").
Proof.
  intros Hm Hr. unfold fetchOne. rewrite Hm.
  change (filepath.Join [crateDirFor (crateNameFromURL url) (outDir d); sanitizeName url])
    with (outPathFor d url).
  change (bool_decide (is_Some (fs w !! outPathFor d url))
          && fst (verifyFile d (fs w) (outPathFor d url) url))
    with (resumable d w url).
  now rewrite Hr.
Qed.

(** C3, as the code has it.  When the file of a URL is already at its
    path and its SHA-256 matches the expected digest that is known for the
    URL, [fetchOne] makes no HTTP request, leaves the files as they are,
    and returns one record with ok true and the status "ok"; the skip
    shows in the metric of the processed files, which is counted under
    "skipped". *)
Theorem resume_skips (d : Downloader) (w : World) (url want : string)
    (content : list Byte.byte) (env : FetchEnv) :
  mkdir_err env = None ->
  fs w !! outPathFor d url = Some content ->
  checksums d !! url = Some want ->
  strings.EqualFold want (sha256_hex content) = true ->
  exists rec w',
    fetchOne d w url env = (Returned rec, w')
    /\ OK rec = true /\ Status rec = "ok" /\ URL rec = url
    /\ Path rec = outPathFor d url
    /\ requests (trace w') = requests (trace w)
    /\ trace w' = (trace w ++ [EvProcessed "skipped"])%list
    /\ fs w' = fs w.
Proof.
  intros Hm Hf Hc He.
  rewrite fetchOne_resumed by eauto using resumable_matching.
  eexists. eexists. split; [reflexivity|].
  cbn [OK Status URL Path countOK trace fs].
  repeat split. apply requests_processed.
Qed.

Lemma resume_skips_witness :
  exists rec w',
    fetchOne checkingDownloader mirroredWorld serdeURL (serverAlways 500 [])
    = (Returned rec, w')
    /\ OK rec = true /\ Status rec = "ok" /\ requests (trace w') = 0%nat.
Proof.
  destruct (resume_skips checkingDownloader mirroredWorld serdeURL
              (sha256_hex serdeBytes) serdeBytes (serverAlways 500 []))
    as (rec & w' & Hf & Hok & Hst & _ & _ & Hreq & _).
  - reflexivity.
  - vm_compute. reflexivity.
  - vm_compute. reflexivity.
  - vm_compute. reflexivity.
  - exists rec, w'. auto.
Defined.

(** C3, as the claim has it, fails: the record of a skipped file has the
    status "ok", not "skipped". *)
Lemma skipped_record_has_status_ok :
  exists rec w',
    fetchOne checkingDownloader mirroredWorld serdeURL (serverAlways 500 [])
    = (Returned rec, w')
    /\ fs mirroredWorld !! outPathFor checkingDownloader serdeURL = Some serdeBytes
    /\ checksums checkingDownloader !! serdeURL = Some (sha256_hex serdeBytes)
    /\ requests (trace w') = 0%nat /\ OK rec = true
    /\ Status rec = "ok" /\ Status rec <> "skipped".
Proof.
  eexists. eexists. split; [vm_compute; reflexivity|].
  repeat split; try (vm_compute; reflexivity). discriminate.
Qed.

(** ** The digest of a record *)

Lemma verifyFile_ok (d : Downloader) (m : gmap string (list Byte.byte))
    (path url sum : string) :
  verifyFile d m path url = (true, sum) ->
  exists content,
    m !! path = Some content /\ sum = sha256_hex content
    /\ forall want, checksums d !! url = Some want -> want <> "" ->
                    strings.EqualFold want (sha256_hex content) = true.
Proof.
  unfold verifyFile. destruct (m !! path) as [content|]; [|discriminate].
  intros H. exists content. split; [reflexivity|].
  destruct (checksums d !! url) as [w0|] eqn:Hc.
  - destruct (String.eqb w0 "") eqn:Hw; cbn [negb] in H.
    + injection H as <-. split; [reflexivity|].
      intros want [= <-] Hne. apply String.eqb_eq in Hw. contradiction.
    + injection H as He <-. split; [reflexivity|]. now intros want [= <-] _.
  - injection H as <-. split; [reflexivity|]. discriminate.
Qed.

Lemma handOff_fs (w : World) (url outPath name : string) (env : FetchEnv) :
  fs (handOff w url outPath name env) = fs w.
Proof.
  unfold handOff. destruct (bundler w) as [b|]; [|reflexivity].
  destruct (Bundler.enabled b); [|reflexivity].
  now destruct (Bundler.AddFile b outPath (headerPathFor url name) (add_env env))
    as [b' [e|]].
Qed.

(** A record with ok true: its file is there, the expected digest (when
    one is known) is that of the file up to case, and the record carries
    the digest of the file, unless the file was found by the resume check,
    in which case the record carries no digest. *)
Lemma ok_record_file (d : Downloader) (w w' : World) (url : string) (env : FetchEnv)
    (rec : ManifestRecord) :
  fetchOne d w url env = (Returned rec, w') -> OK rec = true ->
  Status rec = "ok"
  /\ exists content,
       fs w' !! Path rec = Some content
       /\ (forall want, checksums d !! url = Some want -> want <> "" ->
                        strings.EqualFold want (sha256_hex content) = true)
       /\ (if resumable d w url then SHA256 rec = ""
           else SHA256 rec = sha256_hex content).
Proof.
  intros Hf Hok.
  destruct (mkdir_err env) as [e|] eqn:Hm.
  { unfold fetchOne in Hf. rewrite Hm in Hf. injection Hf as <- <-. discriminate. }
  destruct (resumable d w url) eqn:Hr.
  - rewrite fetchOne_resumed in Hf by assumption. injection Hf as <- <-.
    split; [reflexivity|]. cbn [Path SHA256 countOK fs].
    unfold resumable in Hr. apply andb_true_iff in Hr as [_ Hv].
    destruct (verifyFile d (fs w) (outPathFor d url) url) as [ok sum] eqn:Hvf.
    cbn in Hv. subst ok.
    apply verifyFile_ok in Hvf as (content & Hc & _ & Hw). eauto.
  - rewrite fetchOne_download in Hf by assumption.
    destruct (fetchLoop d env url (tmpPathFor d url) (outPathFor d url)
                (max 1 (retries d)) (Z.to_nat (max 1 (retries d))) 1 (startLoop w))
      as [st|st]; cbn [finishFetch] in Hf; [|discriminate].
    destruct (l_lastErr st); [injection Hf as <- <-; discriminate|].
    destruct (verifyFile d (l_fs st) (outPathFor d url) url) as [ok sum] eqn:Hvf.
    destruct ok; cbn [negb] in Hf; injection Hf as <- <-; [|discriminate].
    split; [reflexivity|]. cbn [Path SHA256]. rewrite handOff_fs. cbn [countOK fs].
    apply verifyFile_ok in Hvf as (content & Hc & -> & Hw). eauto.
Qed.

(** C2 at its failing input.  On a second run over a mirror that has the
    file with the expected digest, the record has ok true and the status
    "ok", and its sha256 field is empty: it is not the digest of the file
    at its path. *)
Theorem resumed_record_without_digest :
  exists rec w',
    fetchOne checkingDownloader mirroredWorld serdeURL (serverAlways 200 serdeBytes)
    = (Returned rec, w')
    /\ OK rec = true /\ Status rec = "ok"
    /\ fs w' !! Path rec = Some serdeBytes
    /\ sha256_hex serdeBytes
       = "128e47097c27244132f24c5aef2828f381da857ef29914cdbd0d077a3f55340c"
    /\ SHA256 rec = "" /\ SHA256 rec <> sha256_hex serdeBytes.
Proof.
  eexists. eexists. split; [vm_compute; reflexivity|].
  repeat split; try (vm_compute; reflexivity).
  vm_compute. discriminate.
Qed.

(** ** The temporary file *)

Lemma tmp_not_out (outPath : string) : outPath ++ ".part" <> outPath.
Proof.
  intros H. apply (f_equal String.length) in H.
  rewrite string_length_app in H. cbn in H. lia.
Qed.

Lemma afterAttempt_tmp (d : Downloader) (attempts k nano : Z) (st : Loop)
    (next : Loop -> Exit) (tmpPath : string) (st' : Loop) :
  l_fs st !! tmpPath = None ->
  (forall s, l_fs s = l_fs st -> next s = Left st' -> l_fs st' !! tmpPath = None) ->
  afterAttempt d attempts k nano st next = Left st' ->
  l_fs st' !! tmpPath = None.
Proof.
  intros Hst Hnext. unfold afterAttempt.
  destruct (l_lastErr st) as [e|]; [|now intros [= <-]].
  destruct (is_ctx e); [now intros [= <-]|].
  destruct (k <? attempts)%Z; apply Hnext; reflexivity.
Qed.

(** The paths beside the one of the failing siblings: when no copy and
    no rename fails, the loop leaves no temporary file behind. *)
Lemma fetchLoop_tmp (d : Downloader) (env : FetchEnv) (url outPath : string)
    (attempts : Z) (fuel : nat) :
  copiesAndRenames env ->
  forall (k : Z) (st st' : Loop),
    l_fs st !! (outPath ++ ".part") = None ->
    fetchLoop d env url (outPath ++ ".part") outPath attempts fuel k st = Left st' ->
    l_fs st' !! (outPath ++ ".part") = None.
Proof.
  intros Henv. induction fuel as [|fuel IH]; intros k st st' Hst.
  - now intros [= <-].
  - cbn [fetchLoop].
    destruct (create_err (attempt_env env k)).
    { intros [= <-]. apply lookup_delete_eq. }
    destruct (negb (request_ok env)); [discriminate|].
    destruct (do_result (attempt_env env k)) as [resp|e] eqn:Hd.
    + destruct (StatusCode resp =? 200)%Z eqn:Hs.
      * apply Z.eqb_eq in Hs. destruct (Henv k resp Hd Hs) as [-> ->].
        intros [= <-]. cbn [l_fs].
        rewrite lookup_insert_ne by (intros H; symmetry in H; now apply tmp_not_out in H).
        apply lookup_delete_eq.
      * destruct (negb (retryable (StatusCode resp))).
        { intros [= <-]. apply lookup_delete_eq. }
        apply afterAttempt_tmp; [apply lookup_delete_eq|].
        intros s Hs'. apply IH. rewrite Hs'. apply lookup_delete_eq.
    + apply afterAttempt_tmp; [apply lookup_delete_eq|].
      intros s Hs'. apply IH. rewrite Hs'. apply lookup_delete_eq.
Qed.

Lemma no_part_when_copy_and_rename_succeed (d : Downloader) (w w' : World)
    (url : string) (env : FetchEnv) (rec : ManifestRecord) :
  copiesAndRenames env ->
  fs w !! tmpPathFor d url = None ->
  fetchOne d w url env = (Returned rec, w') ->
  fs w' !! tmpPathFor d url = None.
Proof.
  intros Henv Hw Hf.
  destruct (mkdir_err env) as [e|] eqn:Hm.
  { unfold fetchOne in Hf. rewrite Hm in Hf. now injection Hf as <- <-. }
  destruct (resumable d w url) eqn:Hr.
  { rewrite fetchOne_resumed in Hf by assumption. now injection Hf as <- <-. }
  rewrite fetchOne_download in Hf by assumption.
  destruct (fetchLoop d env url (tmpPathFor d url) (outPathFor d url)
              (max 1 (retries d)) (Z.to_nat (max 1 (retries d))) 1 (startLoop w))
    as [st|st] eqn:Hl; cbn [finishFetch] in Hf; [|discriminate].
  apply (fetchLoop_tmp d env url (outPathFor d url) _ _ Henv) in Hl; [|exact Hw].
  destruct (l_lastErr st); [now injection Hf as <- <-|].
  destruct (verifyFile d (l_fs st) (outPathFor d url) url) as [ok sum].
  destruct ok; cbn [negb] in Hf; injection Hf as <- <-; [|exact Hl].
  now rewrite handOff_fs.
Qed.

(** C4 at its failing inputs.  A body that stops when the deadline of the
    request passes, and a rename that fails, both end [fetchOne] with the
    temporary file still there: after a 200 the code closes the file but
    removes it only at the start of a next attempt, which these exits do
    not reach.  (The exits after a failed request or a status other than
    200 do remove it.) *)
Theorem part_file_left_behind :
  (exists rec w',
      fetchOne defaultDownloader emptyWorld serdeURL
        (serverTimesOut (firstn 5 serdeBytes)) = (Returned rec, w')
      /\ OK rec = false /\ Error rec = "context deadline exceeded"
      /\ tmpPathFor defaultDownloader serdeURL = "out/s/er/serde-1.0.0.crate.part"
      /\ fs w' !! "out/s/er/serde-1.0.0.crate.part" = Some (firstn 5 serdeBytes))
  /\ (exists rec w',
        fetchOne defaultDownloader emptyWorld serdeURL (renameFails serdeBytes)
        = (Returned rec, w')
        /\ OK rec = false /\ Error rec = "checksum mismatch" /\ Retries rec = 0%Z
        /\ fs w' !! "out/s/er/serde-1.0.0.crate" = None
        /\ fs w' !! "out/s/er/serde-1.0.0.crate.part" = Some serdeBytes).
Proof.
  split; eexists; eexists; (split; [vm_compute; reflexivity|]);
    repeat split; vm_compute; reflexivity.
Qed.

(** ** The orchestrator *)






(** *** Replacing the state of one worker *)







(** *** Every URL is accounted for *)




(** *** Every step has less left to do *)


(** *** A run that has not ended can go on *)



(** *** The run as a whole *)










(** A URL that [http.NewRequestWithContext] rejects: the request is nil,
    setting its header panics, and the process ends with the manifest as
    it is.  (The error of the constructor is dropped in [fetchOne].) *)
Example run_crashes_on_rejected_url :
  exists s,
    reachable defaultDownloader
      (started defaultDownloader emptyWorld [("http://a b/c/d", rejectedURL)]) s
    /\ phase s = PhCrashed /\ manifest s = [].
Proof.
  eexists. split.
  - eapply reach_step; [eapply reach_step; [apply reach_start|]|].
    + apply (step_feed _ _ 0%nat "http://a b/c/d" rejectedURL []); reflexivity.
    + eapply (step_panic _ _ 0%nat "http://a b/c/d" rejectedURL); [reflexivity|reflexivity|].
      vm_compute. reflexivity.
  - split; reflexivity.
Qed.
